(** * facet-tx-worker: the derivation pipeline of [src/index.ts]

    A shallow embedding of the worker that derives, from an L1 transaction,
    the hash of the Facet (L2) transaction built from it.  The two versions
    of the request handler ([src/src/index.ts] and the earlier
    [src/unnamed/part_000]) and the mint-rate reader
    ([src/unnamed/part_001], [getFctMintRate]) are transcribed function by
    function.  The chain clients, the SDK primitives and the hash function
    are capabilities the handler is given; the [viem] helpers the handler
    computes with (hex strings, RLP) are written out. *)

From Stdlib Require Import ZArith NArith List Bool Lia.
From Stdlib Require Import Strings.String Strings.Ascii Strings.Byte.
From Stdlib Require HexadecimalString HexadecimalN.
Import ListNotations.

Local Open Scope string_scope.
Local Open Scope Z_scope.

(** ** JavaScript values and control flow *)

(** The result of a call that may throw.  An [Error] is kept by its
    [message], the only part the handler's [catch] reads. *)
Inductive JsResult (A : Type) : Type :=
| Ok (a : A)
| Throw (message : string).
Arguments Ok {A} a.
Arguments Throw {A} message.

Definition bindR {A B} (r : JsResult A) (k : A -> JsResult B) : JsResult B :=
  match r with
  | Ok a => k a
  | Throw m => Throw m
  end.

Section MapM.
Context {A B : Type} (f : A -> JsResult B).

Fixpoint mapM (l : list A) : JsResult (list B) :=
  match l with
  | [] => Ok []
  | x :: xs => bindR (f x) (fun y => bindR (mapM xs) (fun ys => Ok (y :: ys)))
  end.
End MapM.

Notation "x <- c ;; k" := (bindR c (fun x => k))
  (at level 61, c at next level, right associativity).
Notation "' p <- c ;; k" := (bindR c (fun x => match x with p => k end))
  (at level 61, p pattern, c at next level, right associativity).

(** Strings are sequences of character codes; the hex strings and
    addresses the handler works with are ASCII. *)

(** [s.slice(n)]: the string without its first [n] characters. *)
Fixpoint slice (n : nat) (s : string) : string :=
  match n, s with
  | O, _ => s
  | S n', String _ s' => slice n' s'
  | S _, EmptyString => EmptyString
  end.

(** [c.toLowerCase()] on one character code: the letters A-Z move to a-z. *)
Definition lowerChar (c : ascii) : ascii :=
  let n := N_of_ascii c in
  if ((65 <=? n) && (n <=? 90))%N then ascii_of_N (n + 32) else c.

(** [s.toLowerCase()]. *)
Fixpoint toLowerCase (s : string) : string :=
  match s with
  | EmptyString => EmptyString
  | String c s' => String (lowerChar c) (toLowerCase s')
  end.

(** ** The viem helpers the handler computes with *)

Module Viem.

(** A [Hex] value is a string ["0x..."]; a [ByteArray] is a list of bytes. *)
Definition Hex := string.
Definition ByteArray := list byte.

(** [charCodeToBase16]: the value of a hex digit, [undefined] otherwise. *)
Definition charCodeToBase16 (c : ascii) : option N :=
  let n := N_of_ascii c in
  if ((48 <=? n) && (n <=? 57))%N then Some (n - 48)%N
  else if ((65 <=? n) && (n <=? 70))%N then Some (n - 55)%N
  else if ((97 <=? n) && (n <=? 102))%N then Some (n - 87)%N
  else None.

(** The digit of a nibble, as [Number.prototype.toString(16)] writes it. *)
Definition hexDigit (n : N) : ascii :=
  if (n <? 10)%N then ascii_of_N (48 + n) else ascii_of_N (87 + n).

(** One entry of [bytesToHex]'s table: [i.toString(16).padStart(2, "0")]. *)
Definition hexes (b : byte) : string :=
  let n := Byte.to_N b in
  String (hexDigit (n / 16)) (String (hexDigit (n mod 16)) EmptyString).

Fixpoint hexOfBytes (bytes : ByteArray) : string :=
  match bytes with
  | [] => EmptyString
  | b :: bs => hexes b ++ hexOfBytes bs
  end.

(** [bytesToHex(bytes)]. *)
Definition bytesToHex (bytes : ByteArray) : Hex := "0x" ++ hexOfBytes bytes.

(** [hexToBytes] throws a [BaseError] on a character that is no hex digit. *)
Definition invalidByteSequence : string := "Invalid byte sequence".

Definition byteOfN (n : N) : byte :=
  match Byte.of_N n with
  | Some b => b
  | None => x00
  end.

(** The loop of [hexToBytes]: the digits two at a time, each pair a byte. *)
Fixpoint hexPairs (digits : string) : JsResult ByteArray :=
  match digits with
  | String l (String r rest) =>
    match charCodeToBase16 l, charCodeToBase16 r with
    | Some nl, Some nr =>
      bs <- hexPairs rest ;; Ok (byteOfN (nl * 16 + nr) :: bs)
    | _, _ => Throw invalidByteSequence
    end
  | _ => Ok []
  end.

(** [hexToBytes(hex)]: drops the two characters of the prefix, pads an odd
    number of digits with a leading zero. *)
Definition hexToBytes (hex : Hex) : JsResult ByteArray :=
  let hexString := slice 2 hex in
  let hexString :=
    if Nat.odd (String.length hexString) then String "0" hexString
    else hexString in
  hexPairs hexString.

(** [isHex(value)] (strict): the pattern [^0x[0-9a-fA-F]*$]. *)
Fixpoint allHexDigits (s : string) : bool :=
  match s with
  | EmptyString => true
  | String c s' =>
    match charCodeToBase16 c with
    | Some _ => allHexDigits s'
    | None => false
    end
  end.

Definition isHex (value : string) : bool :=
  match value with
  | String "0" (String "x" digits) => allHexDigits digits
  | _ => false
  end.

(** [stringToBytes(value)]: the character codes of the string. *)
Definition stringToBytes (value : string) : ByteArray :=
  List.map byte_of_ascii (list_ascii_of_string value).

(** [toBytes(value)] on a string. *)
Definition toBytes (value : string) : JsResult ByteArray :=
  if isHex value then hexToBytes value else Ok (stringToBytes value).

(** [n.toString(16)]. *)
Definition toString16 (n : N) : string :=
  HexadecimalString.NilZero.string_of_uint (N.to_hex_uint n).

Definition MAX_SAFE_INTEGER : Z := 2 ^ 53 - 1.

Definition integerOutOfRange : string := "Number is not in safe integer range".

(** [numberToHex(value)] without [size]: a [number] is bounded by
    [Number.MAX_SAFE_INTEGER], a [bigint] is not; a negative value throws
    [IntegerOutOfRangeError]. *)
Definition numberToHex (isNumber : bool) (value : Z) : JsResult Hex :=
  if (isNumber && (MAX_SAFE_INTEGER <? value)) || (value <? 0)
  then Throw integerOutOfRange
  else Ok ("0x" ++ toString16 (Z.to_N value)).

(** What [toHex] accepts: [string | number | bigint | boolean | ByteArray]. *)
Inductive ToHexValue : Type :=
| VString (s : string)
| VNumber (n : Z)
| VBigInt (n : Z)
| VBoolean (b : bool)
| VBytes (bytes : ByteArray).

(** [toHex(value)]: dispatch on the type of the value. *)
Definition toHex (value : ToHexValue) : JsResult Hex :=
  match value with
  | VNumber n => numberToHex true n
  | VBigInt n => numberToHex false n
  | VString s => Ok (bytesToHex (stringToBytes s))
  | VBoolean b => Ok (if b then "0x1" else "0x0")
  | VBytes bytes => Ok (bytesToHex bytes)
  end.

(** JavaScript truthiness of such a value. *)
Definition truthy (value : ToHexValue) : bool :=
  match value with
  | VString s => negb (String.eqb s "")
  | VNumber n | VBigInt n => negb (n =? 0)
  | VBoolean b => b
  | VBytes _ => true
  end.

(** [x.replace("0x", "")]: the string without the first ["0x"] in it. *)
Fixpoint replace0x (x : string) : string :=
  match x with
  | String "0" (String "x" rest) => rest
  | String c x' => String c (replace0x x')
  | EmptyString => EmptyString
  end.

(** [concatHex(values)]: every value without its ["0x"], behind one ["0x"]. *)
Definition concatHex (values : list Hex) : Hex :=
  "0x" ++ fold_left (fun acc x => acc ++ replace0x x) values "".

(** *** RLP *)

(** [RecursiveArray<T>]: a value or an array of such. *)
#[local] Unset Elimination Schemes.
Inductive RecursiveArray (T : Type) : Type :=
| Item (value : T)
| Arr (items : list (RecursiveArray T)).
#[local] Set Elimination Schemes.
Arguments Item {T} value.
Arguments Arr {T} items.

Definition lengthTooLarge : string := "Length is too large.".

(** [getSizeOfLength(length)]. *)
Definition getSizeOfLength (length : N) : JsResult N :=
  (if length <? 2 ^ 8 then Ok 1
   else if length <? 2 ^ 16 then Ok 2
   else if length <? 2 ^ 24 then Ok 3
   else if length <? 2 ^ 32 then Ok 4
   else Throw lengthTooLarge)%N.

(** [pushUint8] ... [pushUint32]: [size] bytes, most significant first. *)
Fixpoint pushUint (size : nat) (n : N) : ByteArray :=
  match size with
  | O => []
  | S size' => byteOfN ((n / 256 ^ N.of_nat size') mod 256)%N :: pushUint size' n
  end.

Definition blength (bytes : ByteArray) : N := N.of_nat (List.length bytes).

(** The bytes [getEncodableBytes(bytes).encode] writes. *)
Definition getEncodableBytes (bytes : ByteArray) : JsResult ByteArray :=
  sizeOfBytesLength <- getSizeOfLength (blength bytes) ;;
  match bytes with
  | [b] =>
    if (Byte.to_N b <? 128)%N then Ok bytes
    else Ok (byteOfN (128 + 1) :: bytes)
  | _ =>
    if (blength bytes <=? 55)%N then Ok (byteOfN (128 + blength bytes) :: bytes)
    else Ok (byteOfN (128 + 55 + sizeOfBytesLength)
               :: pushUint (N.to_nat sizeOfBytesLength) (blength bytes) ++ bytes)
  end.

(** The bytes [getEncodableList(list).encode] writes, from the bytes of
    the members. *)
Definition getEncodableList (list : list ByteArray) : JsResult ByteArray :=
  let body := List.concat list in
  let bodyLength := blength body in
  sizeOfBodyLength <- getSizeOfLength bodyLength ;;
  if (bodyLength <=? 55)%N then Ok (byteOfN (192 + bodyLength) :: body)
  else Ok (byteOfN (192 + 55 + sizeOfBodyLength)
             :: pushUint (N.to_nat sizeOfBodyLength) bodyLength ++ body).

(** [getEncodable(bytes)]: a hex string is first turned into bytes. *)
Fixpoint getEncodable (x : RecursiveArray Hex) : JsResult ByteArray :=
  match x with
  | Item hex => bytes <- hexToBytes hex ;; getEncodableBytes bytes
  | Arr items => list <- mapM getEncodable items ;; getEncodableList list
  end.

(** [toRlp(bytes)] with the default output, a hex string. *)
Definition toRlp (x : RecursiveArray Hex) : JsResult Hex :=
  encoded <- getEncodable x ;; Ok (bytesToHex encoded).

(** The cursor of the decoder is kept as its unread bytes: reading moves
    bytes off the front, and the cursor's position is the number of bytes
    read so far. *)
Definition positionOutOfBounds : string := "Position is out of bounds".
Definition invalidRlpPrefix : string := "Invalid RLP prefix".
Definition invalidHexValue : string := "Hex value is invalid".

(** [cursor.readByte()]. *)
Definition readByte (cursor : ByteArray) : JsResult (N * ByteArray) :=
  match cursor with
  | b :: rest => Ok (Byte.to_N b, rest)
  | [] => Throw positionOutOfBounds
  end.

(** [cursor.readBytes(length)]. *)
Definition readBytes (length : N) (cursor : ByteArray)
  : JsResult (ByteArray * ByteArray) :=
  if (length <=? blength cursor)%N
  then Ok (firstn (N.to_nat length) cursor, skipn (N.to_nat length) cursor)
  else Throw positionOutOfBounds.

Fixpoint uintOfBytes (acc : N) (bytes : ByteArray) : N :=
  match bytes with
  | [] => acc
  | b :: bs => uintOfBytes (acc * 256 + Byte.to_N b)%N bs
  end.

(** [cursor.readUint8()] ... [cursor.readUint32()]: [size] bytes, most
    significant first. *)
Definition readUint (size : nat) (cursor : ByteArray)
  : JsResult (N * ByteArray) :=
  if (size <=? List.length cursor)%nat
  then Ok (uintOfBytes 0 (firstn size cursor), skipn size cursor)
  else Throw positionOutOfBounds.

(** [readLength(cursor, prefix, offset)]. *)
Definition readLength (cursor : ByteArray) (prefix offset : N)
  : JsResult (N * ByteArray) :=
  (if (offset =? 128) && (prefix <? 128) then Ok (1, cursor)
   else if prefix <=? offset + 55 then Ok (prefix - offset, cursor)
   else if prefix =? offset + 55 + 1 then readUint 1 cursor
   else if prefix =? offset + 55 + 2 then readUint 2 cursor
   else if prefix =? offset + 55 + 3 then readUint 3 cursor
   else if prefix =? offset + 55 + 4 then readUint 4 cursor
   else Throw invalidRlpPrefix)%N.

(** [fromRlpCursor(cursor)] and the loop of [readList(cursor, length)].
    [bytesLength] is [cursor.bytes.length], the size of the whole buffer;
    [start] is the number of unread bytes when the list began, so that
    [start - blength cursor] is [cursor.position - position].  The
    recursion is on [fuel]; [None] is a run that used it up. *)
Fixpoint fromRlpCursor (fuel : nat) (bytesLength : N) (cursor : ByteArray)
  : option (JsResult (RecursiveArray Hex * ByteArray)) :=
  match fuel with
  | O => None
  | S fuel' =>
    if (bytesLength =? 0)%N then Some (Ok (Item (bytesToHex []), cursor))
    else
      match readByte cursor with
      | Throw m => Some (Throw m)
      | Ok (prefix, rest) =>
        (* [if (prefix < 0x80) cursor.decrementPosition(1)] *)
        let cursor := if (prefix <? 128)%N then cursor else rest in
        if (prefix <? 192)%N then
          Some ('(length, cursor) <- readLength cursor prefix 128 ;;
                '(bytes, cursor) <- readBytes length cursor ;;
                Ok (Item (bytesToHex bytes), cursor))
        else
          match readLength cursor prefix 192 with
          | Throw m => Some (Throw m)
          | Ok (length, cursor) =>
            match readList fuel' bytesLength (blength cursor) length cursor [] with
            | None => None
            | Some (Throw m) => Some (Throw m)
            | Some (Ok (value, cursor)) => Some (Ok (Arr value, cursor))
            end
          end
      end
  end
with readList (fuel : nat) (bytesLength start length : N)
              (cursor : ByteArray) (value : list (RecursiveArray Hex))
  : option (JsResult (list (RecursiveArray Hex) * ByteArray)) :=
  match fuel with
  | O => None
  | S fuel' =>
    if (start - blength cursor <? length)%N then
      match fromRlpCursor fuel' bytesLength cursor with
      | None => None
      | Some (Throw m) => Some (Throw m)
      | Some (Ok (item, cursor)) =>
        readList fuel' bytesLength start length cursor (value ++ [item])
      end
    else Some (Ok (value, cursor))
  end.


(** [fromRlp(value)] on a hex string, with the default output.  Every item
    read takes at least one byte off the cursor, so twice the length of
    the buffer (and two) is fuel enough: see [fromRlpCursor_fuel]. *)
Definition fromRlp (value : Hex) : JsResult (RecursiveArray Hex) :=
  if (3 <? String.length value)%nat && Nat.odd (String.length value)
  then Throw invalidHexValue
  else
    bytes <- hexToBytes value ;;
    match fromRlpCursor (2 * List.length bytes + 2) (blength bytes) bytes with
    | Some r => '(result, _) <- r ;; Ok result
    | None => Throw positionOutOfBounds
    end.

End Viem.

Import Viem.

(** ** JavaScript numbers and conversions *)

(** A [number] as the handler observes the chain id: not a number, an
    integer, or any other value (a fraction, an infinity).  Minus zero is
    [JsInt 0]. *)
Inductive JsNumber : Type :=
| JsNaN
| JsInt (n : Z)
| JsOther.

(** [!n]: zero and [NaN] are falsy. *)
Definition numberFalsy (n : JsNumber) : bool :=
  match n with
  | JsNaN => true
  | JsInt z => z =? 0
  | JsOther => false
  end.

(** [n === k] for an integer literal [k]. *)
Definition numberIs (n : JsNumber) (k : Z) : bool :=
  match n with
  | JsInt z => z =? k
  | _ => false
  end.

(** Arithmetic on [number]s that hold integers is exact as long as every
    value stays within [Number.MAX_SAFE_INTEGER]; the functions below give
    [None] outside that range, where a double rounds.  Within it the
    quotient [x / 12] is rounded by less than 1/12, so that its floor is
    the floor of the exact quotient. *)
Definition isSafeInteger (z : Z) : bool := Z.abs z <=? MAX_SAFE_INTEGER.

(** [Number(b)] for a [bigint]. *)
Definition NumberOfBigInt (b : Z) : option Z :=
  if isSafeInteger b then Some b else None.

(** [a - b] on [number]s. *)
Definition numberSub (a b : Z) : option Z :=
  if isSafeInteger (a - b) then Some (a - b) else None.

(** [Math.floor(a / b)] for a positive [b]. *)
Definition floorDiv (a b : Z) : Z := a / b.

(** [Array.prototype.toString]: the members joined by commas. *)
Fixpoint jsToString (v : RecursiveArray Hex) : string :=
  match v with
  | Item s => s
  | Arr items => String.concat "," (List.map jsToString items)
  end.

(** [v.length] of a string or an array. *)
Definition jsLength (v : RecursiveArray Hex) : nat :=
  match v with
  | Item s => String.length s
  | Arr items => List.length items
  end.

(** Truthiness of a string or an array: only the empty string is falsy. *)
Definition jsTruthy (v : RecursiveArray Hex) : bool :=
  match v with
  | Item s => negb (String.eqb s "")
  | Arr _ => true
  end.

(** [v !== s] for a string literal [s]: an array is never equal to it. *)
Definition notStrictEq (v : RecursiveArray Hex) (s : string) : bool :=
  match v with
  | Item s' => negb (String.eqb s' s)
  | Arr _ => true
  end.

Fixpoint hexValue (acc : N) (digits : string) : option N :=
  match digits with
  | EmptyString => Some acc
  | String c rest =>
    match charCodeToBase16 c with
    | Some d => hexValue (acc * 16 + d)%N rest
    | None => None
    end
  end.

Definition cannotConvert (s : string) : string :=
  "Cannot convert " ++ s ++ " to a BigInt".

(** [BigInt(s)] on the strings that reach it here, the output of [fromRlp]
    and of joining such: the empty string is zero, ["0x"] with at least one
    digit is read in base 16, anything else (a lone ["0x"], a comma) is a
    [SyntaxError].  Decimal, octal and binary literals and surrounding
    white space do not occur. *)
Definition BigInt (s : string) : JsResult Z :=
  match s with
  | EmptyString => Ok 0
  | String "0" (String "x" (String c rest as digits)) =>
    match hexValue 0 digits with
    | Some n => Ok (Z.of_N n)
    | None => Throw (cannotConvert s)
    end
  | _ => Throw (cannotConvert s)
  end.

(** ** Responses *)

Module Response.
(** [new Response(body, init)]: the status (200 when [init] names none),
    the body, and the headers [init] gives. *)
Record t : Type := make {
  status : Z;
  body : string;
  headers : list (string * string)
}.
End Response.

Definition quotationMark : ascii := ascii_of_N 34.
Definition reverseSolidus : ascii := ascii_of_N 92.

(** [QuoteJSONString]: the escapes [JSON.stringify] writes inside a string. *)
Definition quoteChar (c : ascii) : string :=
  let n := N_of_ascii c in
  let esc (e : ascii) := String reverseSolidus (String e EmptyString) in
  (if n =? 8 then esc "b"%char
   else if n =? 9 then esc "t"%char
   else if n =? 10 then esc "n"%char
   else if n =? 12 then esc "f"%char
   else if n =? 13 then esc "r"%char
   else if n =? 34 then esc quotationMark
   else if n =? 92 then esc reverseSolidus
   else if n <? 32 then
     esc "u"%char ++ "00" ++
     String (hexDigit (n / 16)) (String (hexDigit (n mod 16)) EmptyString)
   else String c EmptyString)%N.

Fixpoint quoteChars (s : string) : string :=
  match s with
  | EmptyString => EmptyString
  | String c s' => quoteChar c ++ quoteChars s'
  end.

Definition quoteJSONString (s : string) : string :=
  String quotationMark (quoteChars s ++ String quotationMark EmptyString).

(** [JSON.stringify({ key: value })] for a string [value]. *)
Definition stringify (key value : string) : string :=
  "{" ++ quoteJSONString key ++ ":" ++ quoteJSONString value ++ "}".

(** [new Response(JSON.stringify({ error: message }), { status })]. *)
Definition errorResponse (message : string) (status : Z) : Response.t :=
  Response.make status (stringify "error" message) [].

(** ** Control flow of the handler *)

(** A step of the handler's [try] block goes on with a value, leaves
    through [return] with a response, or throws.  [Inexact] is a run that
    left the range in which [number] arithmetic is modelled. *)
Inductive Flow (A : Type) : Type :=
| Next (a : A)
| Respond (response : Response.t)
| Raise (message : string)
| Inexact.
Arguments Next {A} a.
Arguments Respond {A} response.
Arguments Raise {A} message.
Arguments Inexact {A}.

Definition bindF {A B} (c : Flow A) (k : A -> Flow B) : Flow B :=
  match c with
  | Next a => k a
  | Respond r => Respond r
  | Raise m => Raise m
  | Inexact => Inexact
  end.

Notation "x <~ c ;; k" := (bindF c (fun x => k))
  (at level 61, c at next level, right associativity).
Notation "' p <~ c ;; k" := (bindF c (fun x => match x with p => k end))
  (at level 61, p pattern, c at next level, right associativity).

(** A call that may throw, inside the [try] block. *)
Definition await {A} (r : JsResult A) : Flow A :=
  match r with
  | Ok a => Next a
  | Throw m => Raise m
  end.

Definition exactly {A} (o : option A) : Flow A :=
  match o with
  | Some a => Next a
  | None => Inexact
  end.

(** [try { ... } catch (error) { return new Response(..., { status: 500 }) }]:
    [None] stands for a run outside the modelled range of [number]. *)
Definition tryCatch (c : Flow Response.t) : option Response.t :=
  match c with
  | Next r | Respond r => Some r
  | Raise m => Some (errorResponse m 500)
  | Inexact => None
  end.

(** ** Chain data *)

Module Transaction.
(** The fields of a transaction the handler reads; [to] and [blockHash]
    may be [null]. *)
Record t : Type := make {
  from : string;
  to : option string;
  input : Hex;
  blockHash : option string
}.
End Transaction.

Module Block.
Record t : Type := make {
  number : Z;
  timestamp : Z
}.
End Block.

Module Log.
Record t : Type := make {
  address : string;
  topics : list string;
  data : Hex
}.
End Log.

Module Receipt.
Record t : Type := make { logs : list Log.t }.
End Receipt.

Inductive Chain : Type := mainnet | sepolia | facetMainnet | facetSepolia.

(** The actions of a viem public client the worker calls.  [getBlock]
    takes the block hash, [None] for the latest block; [readContract]
    takes the address, the function name and the block number. *)
Record PublicClient : Type := {
  getTransaction : string -> JsResult (option Transaction.t);
  getBlock : option string -> JsResult Block.t;
  getTransactionReceipt : string -> JsResult Receipt.t;
  readContract : string -> string -> option Z -> JsResult Z
}.

Module Decoded.
(** What [decodeFacetEncodedTransaction] resolves to, as the handler
    reads it. *)
Record t : Type := make {
  to : option string;
  value : option Z;
  data : option Hex;
  gasLimit : option Z;
  mineBoost : option ToHexValue
}.
End Decoded.

(** What the handler is given: the runtime's reading of a string as a
    number, the chain clients, and the functions of [@0xfacet/sdk] and of
    the module [./decodeFacetEncodedTransaction].  The hash function takes
    the mint amount last, absent in the earlier handler. *)
Class World : Type := {
  StringToNumber : string -> JsNumber;
  createPublicClient : Chain -> PublicClient;
  id : Chain -> Z;
  applyL1ToL2Alias : string -> JsResult string;
  calculateInputGasCost : ByteArray -> JsResult Z;
  computeFacetTransactionHash :
    string -> string -> RecursiveArray Hex -> Z -> RecursiveArray Hex -> Z ->
    option Z -> JsResult string;
  decodeFacetEncodedTransaction : Hex -> JsResult Decoded.t;
  sdkDecodeFacetEncodedTransaction : Hex -> JsResult Decoded.t
}.

(** [Number(v)] for the result of [searchParams.get]: [null] is zero. *)
Definition Number `{W : World} (v : option string) : JsNumber :=
  match v with
  | None => JsInt 0
  | Some s => StringToNumber s
  end.

(** The request, as the handler reads it: the two query parameters. *)
Module Request.
Record t : Type := make {
  txHash : option string;
  chainId : option string
}.
End Request.

(** ** [getFctMintRate] *)

Module GetFctMintRate.
Section WithWorld.
Context `{W : World}.

Definition L2_L1_BLOCK_CONTRACT : string :=
  "0x4200000000000000000000000000000000000015".

(** [getFctMintRate(l1ChainId, blockNumber)]. *)
Definition getFctMintRate (l1ChainId : JsNumber) (blockNumber : option Z)
  : JsResult Z :=
  if negb (numberIs l1ChainId 1) && negb (numberIs l1ChainId 11155111)
  then Throw "Invalid chain id"
  else
    let facetPublicClient :=
      createPublicClient
        (if numberIs l1ChainId 1 then facetMainnet else facetSepolia) in
    readContract facetPublicClient L2_L1_BLOCK_CONTRACT "fctMintRate"
                 blockNumber.
End WithWorld.
End GetFctMintRate.

(** ** The handler of [src/index.ts] *)

(** The fields both handlers read from the transaction or its event. *)
Module Fields.
Record t : Type := make {
  fromAddress : string;
  to : option (RecursiveArray Hex);
  value : option Z;
  data : option (RecursiveArray Hex);
  gasLimit : option Z
}.
End Fields.

(** The arguments the handler gathers for [computeFacetTransactionHash]. *)
Module Derived.
Record t : Type := make {
  fromAddress : string;
  to : option (RecursiveArray Hex);
  value : option Z;
  data : option (RecursiveArray Hex);
  gasLimit : option Z;
  fctMintAmount : Z
}.
End Derived.

(** [!s] for a string or [null]: [null] and the empty string are falsy. *)
Definition stringFalsy (s : option string) : bool :=
  match s with
  | Some s => String.eqb s ""
  | None => true
  end.

(** [x ?? d]. *)
Definition orElse {A} (x : option A) (d : A) : A :=
  match x with
  | Some a => a
  | None => d
  end.

Module Index.
Import GetFctMintRate.
Section WithWorld.
Context `{W : World}.

Definition FACET_INBOX_ADDRESS : string :=
  "0x00000000000000000000000000000000000FacE7".
Definition FACET_EVENT_SIGNATURE : string :=
  "0x00000000000000000000000000000000000000000000000000000000000face7".
Definition L2_BLOCK_TIME : Z := 12.

(** Lines 57-67: the L2 block at which the mint rate is read. *)
Definition targetL2BlockNumber (latestL2Block transactionBlock : Block.t)
  : option Z :=
  let latestL2BlockNumber := Block.number latestL2Block in
  match NumberOfBigInt (Block.timestamp latestL2Block),
        NumberOfBigInt (Block.timestamp transactionBlock) with
  | Some latestL2Timestamp, Some transactionTimestamp =>
    match numberSub latestL2Timestamp transactionTimestamp with
    | Some timeDiffSeconds =>
      let l2BlocksToGoBack := floorDiv timeDiffSeconds L2_BLOCK_TIME in
      Some (latestL2BlockNumber - l2BlocksToGoBack)
    | None => None
    end
  | _, _ => None
  end.

(** Line 83: [transaction.to?.toLowerCase() ===
    FACET_INBOX_ADDRESS.toLowerCase()]. *)
Definition sentToInbox (transaction : Transaction.t) : bool :=
  match option_map toLowerCase (Transaction.to transaction) with
  | Some recipient => String.eqb recipient (toLowerCase FACET_INBOX_ADDRESS)
  | None => false
  end.

(** [v ? toHex(v) : "0x"]. *)
Definition toHexOrEmpty (v : option ToHexValue) : JsResult Hex :=
  match v with
  | Some x => if truthy x then toHex x else Ok "0x"
  | None => Ok "0x"
  end.

(** Line 95: [l1ChainId === 1 ? facetMainnet.id : facetSepolia.id]. *)
Definition l2ChainId (l1ChainId : JsNumber) : Z :=
  if numberIs l1ChainId 1 then id facetMainnet else id facetSepolia.

(** Lines 94-103: the fields of the decoded transaction, encoded again. *)
Definition encodeTransaction (l1ChainId : JsNumber) (decoded : Decoded.t)
  : JsResult Hex :=
  chain <- toHex (VNumber (l2ChainId l1ChainId)) ;;
  value <- toHexOrEmpty (option_map VBigInt (Decoded.value decoded)) ;;
  gasLimit <- toHexOrEmpty (option_map VBigInt (Decoded.gasLimit decoded)) ;;
  mineBoost <- toHexOrEmpty (Decoded.mineBoost decoded) ;;
  let transactionData :=
    [ Item chain;
      Item (orElse (Decoded.to decoded) "0x");
      Item value;
      Item gasLimit;
      Item (orElse (Decoded.data decoded) "0x");
      Item mineBoost ] in
  tag <- toHex (VNumber 70) ;;
  rlp <- toRlp (Arr transactionData) ;;
  Ok (concatHex [tag; rlp]).

(** Lines 94-104: the input cost of a transaction sent to the inbox. *)
Definition directInputCost (l1ChainId : JsNumber) (decoded : Decoded.t)
  : JsResult Z :=
  encodedTransaction <- encodeTransaction l1ChainId decoded ;;
  bytes <- toBytes encodedTransaction ;;
  calculateInputGasCost bytes.

(** Lines 84-105: a transaction sent to the inbox. *)
Definition directPath (l1ChainId : JsNumber) (transaction : Transaction.t)
                      (fctMintRate : Z) : Flow Derived.t :=
  let fromAddress := Transaction.from transaction in
  decodedTransaction <~
    await (decodeFacetEncodedTransaction (Transaction.input transaction)) ;;
  inputCost <~ await (directInputCost l1ChainId decodedTransaction) ;;
  Next {| Derived.fromAddress := fromAddress;
          Derived.to := option_map Item (Decoded.to decodedTransaction);
          Derived.value := Decoded.value decodedTransaction;
          Derived.data := option_map Item (Decoded.data decodedTransaction);
          Derived.gasLimit := Decoded.gasLimit decodedTransaction;
          Derived.fctMintAmount := inputCost * fctMintRate |}.

(** Lines 114-116: the first log with the Facet signature as its only
    topic. *)
Definition isFacetEvent (log : Log.t) : bool :=
  match Log.topics log with
  | [topic] => String.eqb topic FACET_EVENT_SIGNATURE
  | _ => false
  end.

Definition findFacetEvent (receipt : Receipt.t) : option Log.t :=
  List.find isFacetEvent (Receipt.logs receipt).

(** [hex && hex !== "0x" ? BigInt(hex) : 0n]. *)
Definition bigIntOrZero (hex : RecursiveArray Hex) : JsResult Z :=
  if jsTruthy hex && notStrictEq hex "0x" then BigInt (jsToString hex)
  else Ok 0.

Definition invalidRlpData : string := "Invalid RLP data in Facet event".

(** Lines 125-161: the fields read from a Facet event. *)
Definition decodeEvent (facetEvent : Log.t) (fctMintRate : Z)
  : Flow Derived.t :=
  fromAddress <~ await (applyL1ToL2Alias (Log.address facetEvent)) ;;
  let payload := Log.data facetEvent in
  let rlpData := "0x" ++ slice 4 payload in
  decoded <~ await (fromRlp rlpData) ;;
  match decoded with
  | Arr (_ :: toAddressBytes :: valueHex :: gasLimitHex :: data :: _ :: _) =>
    let to := if (jsLength toAddressBytes <=? 2)%nat then None
              else Some toAddressBytes in
    value <~ await (bigIntOrZero valueHex) ;;
    gasLimit <~ await (bigIntOrZero gasLimitHex) ;;
    bytes <~ await (toBytes payload) ;;
    let inputCost := Z.of_N (blength bytes) * 8 in
    Next {| Derived.fromAddress := fromAddress;
            Derived.to := to;
            Derived.value := Some value;
            Derived.data := Some data;
            Derived.gasLimit := Some gasLimit;
            Derived.fctMintAmount := inputCost * fctMintRate |}
  | _ =>
    (* [!Array.isArray(decoded) || decoded.length < 6] *)
    Raise invalidRlpData
  end.

(** Lines 108-161: a transaction sent anywhere else. *)
Definition eventPath (l1PublicClient : PublicClient)
                     (l1TransactionHash : string) (fctMintRate : Z)
  : Flow Derived.t :=
  receipt <~ await (getTransactionReceipt l1PublicClient l1TransactionHash) ;;
  match findFacetEvent receipt with
  | None => Respond (errorResponse "No Facet event found in transaction" 400)
  | Some facetEvent => decodeEvent facetEvent fctMintRate
  end.

(** Lines 83-162: the two ways to the fields of the Facet transaction. *)
Definition derive (l1PublicClient : PublicClient) (l1ChainId : JsNumber)
                  (l1TransactionHash : string)
                  (transaction : Transaction.t) (fctMintRate : Z)
  : Flow Derived.t :=
  if sentToInbox transaction
  then directPath l1ChainId transaction fctMintRate
  else eventPath l1PublicClient l1TransactionHash fctMintRate.

(** Lines 165-179: the hash and the response. *)
Definition respond (l1TransactionHash : string) (d : Derived.t)
  : Flow Response.t :=
  facetTransactionHash <~
    await (computeFacetTransactionHash
             l1TransactionHash
             (Derived.fromAddress d)
             (orElse (Derived.to d) (Item "0x"))
             (orElse (Derived.value d) 0)
             (orElse (Derived.data d) (Item "0x"))
             (orElse (Derived.gasLimit d) 0)
             (Some (Derived.fctMintAmount d))) ;;
  Next (Response.make 200
          (stringify "facetTransactionHash" facetTransactionHash)
          [("Content-Type", "application/json")]).

(** Lines 16-26: the query parameters.  A missing or empty [txHash], a
    chain id that is zero or not a number, and a chain id other than the
    two known ones leave with status 400. *)
Definition validate (request : Request.t) : Flow (string * JsNumber) :=
  let l1TransactionHash := Request.txHash request in
  let l1ChainId := Number (Request.chainId request) in
  if stringFalsy l1TransactionHash || numberFalsy l1ChainId
  then Respond (errorResponse "Missing txHash or chainId" 400)
  else if negb (numberIs l1ChainId 1) && negb (numberIs l1ChainId 11155111)
  then Respond (errorResponse "Invalid chainId" 400)
  else Next (orElse l1TransactionHash "", l1ChainId).

(** Lines 28-73: the clients, the transaction and the mint rate. *)
Definition lookup (l1TransactionHash : string) (l1ChainId : JsNumber)
  : Flow (PublicClient * Transaction.t * Z) :=
  let l1PublicClient :=
    createPublicClient (if numberIs l1ChainId 1 then mainnet else sepolia) in
  let l2PublicClient :=
    createPublicClient
      (if numberIs l1ChainId 1 then facetMainnet else facetSepolia) in
  found <~ await (getTransaction l1PublicClient l1TransactionHash) ;;
  match found with
  | None => Respond (errorResponse "Transaction not found" 404)
  | Some transaction =>
    transactionBlock <~
      await (getBlock l1PublicClient (Transaction.blockHash transaction)) ;;
    latestL2Block <~ await (getBlock l2PublicClient None) ;;
    target <~ exactly (targetL2BlockNumber latestL2Block transactionBlock) ;;
    fctMintRate <~ await (getFctMintRate l1ChainId (Some target)) ;;
    Next (l1PublicClient, transaction, fctMintRate)
  end.

(** The body of the [try] block. *)
Definition handler (request : Request.t) : Flow Response.t :=
  '(l1TransactionHash, l1ChainId) <~ validate request ;;
  '(l1PublicClient, transaction, fctMintRate) <~
    lookup l1TransactionHash l1ChainId ;;
  d <~ derive l1PublicClient l1ChainId l1TransactionHash transaction
              fctMintRate ;;
  respond l1TransactionHash d.

(** [fetch(request)]. *)
Definition fetch (request : Request.t) : option Response.t :=
  tryCatch (handler request).

End WithWorld.
End Index.

(** ** The earlier handler, [src/unnamed/part_000] *)

Module Part000.
Section WithWorld.
Context `{W : World}.

Definition FACET_INBOX_ADDRESS : string :=
  "0x00000000000000000000000000000000000FacE7".
Definition FACET_EVENT_SIGNATURE : string :=
  "0x00000000000000000000000000000000000000000000000000000000000face7".

(** Line 51. *)
Definition sentToInbox (transaction : Transaction.t) : bool :=
  match option_map toLowerCase (Transaction.to transaction) with
  | Some recipient => String.eqb recipient (toLowerCase FACET_INBOX_ADDRESS)
  | None => false
  end.

(** Lines 52-58: a transaction sent to the inbox, decoded by the SDK. *)
Definition directPath (transaction : Transaction.t) : Flow Fields.t :=
  let fromAddress := Transaction.from transaction in
  decodedTransaction <~
    await (sdkDecodeFacetEncodedTransaction (Transaction.input transaction)) ;;
  Next {| Fields.fromAddress := fromAddress;
          Fields.to := option_map Item (Decoded.to decodedTransaction);
          Fields.value := Decoded.value decodedTransaction;
          Fields.data := option_map Item (Decoded.data decodedTransaction);
          Fields.gasLimit := Decoded.gasLimit decodedTransaction |}.

(** Line 66. *)
Definition isFacetEvent (log : Log.t) : bool :=
  match Log.topics log with
  | [topic] => String.eqb topic FACET_EVENT_SIGNATURE
  | _ => false
  end.

Definition findFacetEvent (receipt : Receipt.t) : option Log.t :=
  List.find isFacetEvent (Receipt.logs receipt).

Definition bigIntOrZero (hex : RecursiveArray Hex) : JsResult Z :=
  if jsTruthy hex && notStrictEq hex "0x" then BigInt (jsToString hex)
  else Ok 0.

Definition invalidRlpData : string := "Invalid RLP data in Facet event".

(** Lines 72-101: the fields read from a Facet event. *)
Definition decodeEvent (facetEvent : Log.t) : Flow Fields.t :=
  fromAddress <~ await (applyL1ToL2Alias (Log.address facetEvent)) ;;
  let payload := Log.data facetEvent in
  let rlpData := "0x" ++ slice 4 payload in
  decoded <~ await (fromRlp rlpData) ;;
  match decoded with
  | Arr (_ :: toAddressBytes :: valueHex :: gasLimitHex :: data :: _ :: _) =>
    let to := if (jsLength toAddressBytes <=? 2)%nat then None
              else Some toAddressBytes in
    value <~ await (bigIntOrZero valueHex) ;;
    gasLimit <~ await (bigIntOrZero gasLimitHex) ;;
    Next {| Fields.fromAddress := fromAddress;
            Fields.to := to;
            Fields.value := Some value;
            Fields.data := Some data;
            Fields.gasLimit := Some gasLimit |}
  | _ => Raise invalidRlpData
  end.

(** Lines 60-102. *)
Definition eventPath (l1PublicClient : PublicClient)
                     (l1TransactionHash : string) : Flow Fields.t :=
  receipt <~ await (getTransactionReceipt l1PublicClient l1TransactionHash) ;;
  match findFacetEvent receipt with
  | None => Respond (errorResponse "No Facet event found in transaction" 400)
  | Some facetEvent => decodeEvent facetEvent
  end.

(** Lines 51-102. *)
Definition derive (l1PublicClient : PublicClient)
                  (l1TransactionHash : string)
                  (transaction : Transaction.t) : Flow Fields.t :=
  if sentToInbox transaction
  then directPath transaction
  else eventPath l1PublicClient l1TransactionHash.

(** Lines 105-134: the hash, the check that the L2 chain has a
    transaction of that hash, and the response. *)
Definition respond (l2PublicClient : PublicClient)
                   (l1TransactionHash : string) (d : Fields.t)
  : Flow Response.t :=
  facetTransactionHash <~
    await (computeFacetTransactionHash
             l1TransactionHash
             (Fields.fromAddress d)
             (orElse (Fields.to d) (Item "0x"))
             (orElse (Fields.value d) 0)
             (orElse (Fields.data d) (Item "0x"))
             (orElse (Fields.gasLimit d) 0)
             None) ;;
  match getTransaction l2PublicClient facetTransactionHash with
  | Ok (Some _) =>
    Next (Response.make 200
            (stringify "facetTransactionHash" facetTransactionHash)
            [("Content-Type", "application/json")])
  | Ok None | Throw _ =>
    Respond (errorResponse "Facet transaction not found" 404)
  end.

(** Lines 11-21. *)
Definition validate (request : Request.t) : Flow (string * JsNumber) :=
  let l1TransactionHash := Request.txHash request in
  let l1ChainId := Number (Request.chainId request) in
  if stringFalsy l1TransactionHash || numberFalsy l1ChainId
  then Respond (errorResponse "Missing txHash or chainId" 400)
  else if negb (numberIs l1ChainId 1) && negb (numberIs l1ChainId 11155111)
  then Respond (errorResponse "Invalid chainId" 400)
  else Next (orElse l1TransactionHash "", l1ChainId).

(** The body of the [try] block. *)
Definition handler (request : Request.t) : Flow Response.t :=
  '(l1TransactionHash, l1ChainId) <~ validate request ;;
  let l1PublicClient :=
    createPublicClient (if numberIs l1ChainId 1 then mainnet else sepolia) in
  let l2PublicClient :=
    createPublicClient
      (if numberIs l1ChainId 1 then facetMainnet else facetSepolia) in
  found <~ await (getTransaction l1PublicClient l1TransactionHash) ;;
  match found with
  | None => Respond (errorResponse "Transaction not found" 404)
  | Some transaction =>
    d <~ derive l1PublicClient l1TransactionHash transaction ;;
    respond l2PublicClient l1TransactionHash d
  end.

(** [fetch(request)]. *)
Definition fetch (request : Request.t) : option Response.t :=
  tryCatch (handler request).

End WithWorld.
End Part000.

(** ** Case-insensitive comparison, as the classifier is specified *)

Definition isUpper (c : ascii) : bool :=
  let n := N_of_ascii c in ((65 <=? n) && (n <=? 90))%N.

(** Two character codes that are equal, or the two cases of one letter. *)
Definition sameLetter (c d : ascii) : bool :=
  Ascii.eqb c d
  || (isUpper c && (N_of_ascii d =? N_of_ascii c + 32)%N)
  || (isUpper d && (N_of_ascii c =? N_of_ascii d + 32)%N).

(** Strings of one length whose characters agree up to the case of
    letters. *)
Fixpoint equalIgnoringCase (s t : string) : bool :=
  match s, t with
  | EmptyString, EmptyString => true
  | String c s', String d t' => sameLetter c d && equalIgnoringCase s' t'
  | _, _ => false
  end.

(** Every character code, for checks that run over all of them. *)
Definition allAscii : list ascii := List.map ascii_of_nat (seq 0 256).

(** [s] has [sub] somewhere in it. *)
Definition contains (s sub : string) : Prop :=
  exists before after, s = before ++ sub ++ after.

(** A decoded payload that is no array, or an array of fewer than six
    members: [!Array.isArray(decoded) || decoded.length < 6]. *)
Definition tooShort (decoded : RecursiveArray Hex) : Prop :=
  match decoded with
  | Item _ => True
  | Arr items => (List.length items < 6)%nat
  end.

(** [fields d]: what is left of the derived record without the mint
    amount. *)
Definition fields (d : Derived.t) : Fields.t :=
  {| Fields.fromAddress := Derived.fromAddress d;
     Fields.to := Derived.to d;
     Fields.value := Derived.value d;
     Fields.data := Derived.data d;
     Fields.gasLimit := Derived.gasLimit d |}.

Definition mapF {A B} (f : A -> B) (c : Flow A) : Flow B :=
  x <~ c ;; Next (f x).

(** ** The decoder of the inbox format *)

Module SpecModel.

Definition malformedEnvelope : string := "MalformedEnvelope".

(** Any failure inside the decoder is a malformed envelope. *)
Definition orMalformed {A} (r : JsResult A) : JsResult A :=
  match r with
  | Ok a => Ok a
  | Throw _ => Throw malformedEnvelope
  end.

(** The unsigned integer of the bytes of a hex string, most significant
    first; the empty string is zero. *)
Definition bigEndian (hex : Hex) : JsResult Z :=
  bytes <- hexToBytes hex ;; Ok (Z.of_N (uintOfBytes 0 bytes)).

(** Modelled from the spec: [decodeFacetEncodedTransaction], which
    [index.ts] imports from [./decodeFacetEncodedTransaction], is not among
    the sources.  The spec (4.2, 3) gives its contract: the input is the
    tag byte 70 followed by the RLP list [[l2ChainId, to, value, gasLimit,
    data, mineBoost]]; the result is [(to, value, data, gasLimit,
    mineBoost)] with [to] absent exactly when its byte string is empty,
    [value] and [gasLimit] zero when theirs is, [data] the bytes as they
    are and [mineBoost] an optional byte sequence; any other layout fails
    with [MalformedEnvelope]. *)
Definition decodeFacetEncodedTransaction (input : Hex) : JsResult Decoded.t :=
  orMalformed
    (bytes <- hexToBytes input ;;
     match bytes with
     | tag :: payload =>
       if Byte.eqb tag x46 then
         decoded <- fromRlp (bytesToHex payload) ;;
         match decoded with
         | Arr [Item _; Item to; Item value; Item gasLimit; Item data;
                Item mineBoost] =>
           value <- bigEndian value ;;
           gasLimit <- bigEndian gasLimit ;;
           mineBoost <- hexToBytes mineBoost ;;
           Ok {| Decoded.to := if String.eqb to "0x" then None else Some to;
                 Decoded.value := Some value;
                 Decoded.data := Some data;
                 Decoded.gasLimit := Some gasLimit;
                 Decoded.mineBoost :=
                   match mineBoost with
                   | [] => None
                   | _ :: _ => Some (VBytes mineBoost)
                   end |}
         | _ => Throw malformedEnvelope
         end
       else Throw malformedEnvelope
     | [] => Throw malformedEnvelope
     end).

(** [v]-or-empty, for a [bigint]: [v ? toHex(v) : "0x"]. *)
Definition bigintOrEmpty (v : Z) : JsResult Hex :=
  if v =? 0 then Ok "0x" else toHex (VBigInt v).


End SpecModel.

(** ** A world to run the handlers in *)

Module Demo.

(** The reading of a string of decimal digits as a number; the empty
    string is zero, anything else is not a number. *)
Fixpoint digitsValue (acc : Z) (s : string) : option Z :=
  match s with
  | EmptyString => Some acc
  | String c rest =>
    let n := N_of_ascii c in
    if ((48 <=? n) && (n <=? 57))%N
    then digitsValue (acc * 10 + Z.of_N (n - 48)) rest
    else None
  end.

Definition digitsToNumber (s : string) : JsNumber :=
  match digitsValue 0 s with
  | Some n => JsInt n
  | None => JsNaN
  end.

(** Intrinsic cost of calldata: 4 for a zero byte, 16 for any other. *)
Definition calldataCost (bytes : ByteArray) : JsResult Z :=
  Ok (fold_left
        (fun acc b => acc + if (Byte.to_N b =? 0)%N then 4 else 16)
        bytes 0).

Definition ALIAS_OFFSET : N := 0x1111000000000000000000000000000000001111.

Fixpoint zeros (n : nat) : string :=
  match n with
  | O => EmptyString
  | S n' => String "0" (zeros n')
  end.

(** The alias of an address: the offset added modulo 2^160, written
    with forty lower-case digits. *)
Definition aliasOf (address : string) : JsResult string :=
  match hexValue 0 (slice 2 address) with
  | Some a =>
    let digits := toString16 ((a + ALIAS_OFFSET) mod 2 ^ 160)%N in
    Ok ("0x" ++ zeros (40 - String.length digits) ++ digits)
  | None => Throw (cannotConvert address)
  end.

(** A stand-in for the hash: the L1 hash itself. *)
Definition stubHash (l1TransactionHash fromAddress : string)
           (to : RecursiveArray Hex) (value : Z) (data : RecursiveArray Hex)
           (gasLimit : Z) (fctMintAmount : option Z) : JsResult string :=
  Ok l1TransactionHash.

Definition SENDER : string := "0x1111111111111111111111111111111111111111".
Definition EMITTER : string := "0x2222222222222222222222222222222222222222".
Definition SIGNATURE : string :=
  "0x00000000000000000000000000000000000000000000000000000000000face7".

(** A transaction sent to the inbox, with the address in lower case: no
    recipient, value 1, gas limit 21000, data [0xabcdef]. *)
Definition directTransaction : Transaction.t :=
  {| Transaction.from := SENDER;
     Transaction.to := Some "0x00000000000000000000000000000000000face7";
     Transaction.input := "0x46ce830face7800182520883abcdef80";
     Transaction.blockHash := Some "0xb1" |}.

(** A transaction sent to a contract, and one that creates a contract. *)
Definition contractTransaction : Transaction.t :=
  {| Transaction.from := SENDER;
     Transaction.to := Some EMITTER;
     Transaction.input := "0x";
     Transaction.blockHash := Some "0xb1" |}.

Definition creationTransaction : Transaction.t :=
  {| Transaction.from := SENDER;
     Transaction.to := None;
     Transaction.input := "0x";
     Transaction.blockHash := Some "0xb1" |}.

Definition facetLog (data : Hex) : Log.t :=
  {| Log.address := EMITTER; Log.topics := [SIGNATURE]; Log.data := data |}.

Definition otherLog : Log.t :=
  {| Log.address := EMITTER;
     Log.topics := [SIGNATURE; SIGNATURE];
     Log.data := "0x" |}.

(** The payloads: a well-formed one (no recipient, gas limit 21000, data
    [0xabcdef]), an empty list, and one whose recipient is the single
    byte 5. *)
Definition goodPayload : Hex := "0x46ce830face7808082520883abcdef80".
Definition emptyListPayload : Hex := "0x46c0".
Definition oneBytePayload : Hex := "0x46ce830face7058082520883abcdef80".

Definition receiptOf (hash : string) : JsResult Receipt.t :=
  if String.eqb hash "0x02" then
    Ok {| Receipt.logs := [otherLog; facetLog goodPayload] |}
  else if String.eqb hash "0x03" then
    Ok {| Receipt.logs := [facetLog emptyListPayload] |}
  else if String.eqb hash "0x04" then
    Ok {| Receipt.logs := [facetLog oneBytePayload] |}
  else Ok {| Receipt.logs := [] |}.

Definition transactionOf (hash : string) : JsResult (option Transaction.t) :=
  if String.eqb hash "0x01" then Ok (Some directTransaction)
  else if String.eqb hash "0x05" then Ok (Some creationTransaction)
  else Ok (Some contractTransaction).

(** The L1 block of the transactions and the head of the L2 chain, 125
    seconds later. *)
Definition l1Block : Block.t :=
  {| Block.number := 19000000; Block.timestamp := 1700000000 |}.
Definition l2Head : Block.t :=
  {| Block.number := 5000; Block.timestamp := 1700000125 |}.

Definition MINT_RATE : Z := 1000.

Definition client (chain : Chain) : PublicClient :=
  match chain with
  | mainnet | sepolia =>
    {| getTransaction := transactionOf;
       getBlock := fun _ => Ok l1Block;
       getTransactionReceipt := receiptOf;
       readContract := fun _ _ _ => Throw "not a contract" |}
  | facetMainnet | facetSepolia =>
    {| getTransaction := fun _ => Ok (Some contractTransaction);
       getBlock := fun _ => Ok l2Head;
       getTransactionReceipt := fun _ => Ok {| Receipt.logs := [] |};
       readContract := fun _ _ _ => Ok MINT_RATE |}
  end.

Definition chainIdOf (chain : Chain) : Z :=
  match chain with
  | mainnet => 1
  | sepolia => 11155111
  | facetMainnet => 0xface7
  | facetSepolia => 0xface7a
  end.

(** The inbox format is read by the decoder of the spec. *)
Definition decoder (input : Hex) : JsResult Decoded.t :=
  SpecModel.decodeFacetEncodedTransaction input.

#[export] Instance world : World :=
  {| StringToNumber := digitsToNumber;
     createPublicClient := client;
     id := chainIdOf;
     applyL1ToL2Alias := aliasOf;
     calculateInputGasCost := calldataCost;
     computeFacetTransactionHash := stubHash;
     decodeFacetEncodedTransaction := decoder;
     sdkDecodeFacetEncodedTransaction := decoder |}.

Definition request (txHash chainId : string) : Request.t :=
  {| Request.txHash := Some txHash; Request.chainId := Some chainId |}.

End Demo.

(** The prefix and length bytes the encoder writes before [len] bytes. *)
Definition header (offset len size : N) : ByteArray :=
  if (len <=? 55)%N then [byteOfN (offset + len)]
  else byteOfN (offset + 55 + size) :: pushUint (N.to_nat size) len.

(** Every byte string in a decoded value is the hex of some bytes. *)
#[local] Unset Elimination Schemes.
Inductive hexItems : RecursiveArray Hex -> Prop :=
| hexItems_Item (bytes : ByteArray) : hexItems (Item (bytesToHex bytes))
| hexItems_Arr (items : list (RecursiveArray Hex)) :
    Forall hexItems items -> hexItems (Arr items).
#[local] Set Elimination Schemes.

(** * Properties *)

(** ** Hex strings *)

Lemma hexes_digits (b : byte) :
  exists l r, hexes b = String l (String r EmptyString)
              /\ charCodeToBase16 l = Some (Byte.to_N b / 16)%N
              /\ charCodeToBase16 r = Some (Byte.to_N b mod 16)%N.
Proof.
  destruct b; do 2 eexists; (split; [reflexivity | split; reflexivity]).
Qed.

Lemma byteOfN_to_N (b : byte) :
  byteOfN (Byte.to_N b / 16 * 16 + Byte.to_N b mod 16) = b.
Proof.
  assert (E : (Byte.to_N b / 16 * 16 + Byte.to_N b mod 16 = Byte.to_N b)%N).
  { rewrite N.mul_comm. symmetry. apply N.div_mod. discriminate. }
  rewrite E. unfold byteOfN. now rewrite Byte.of_to_N.
Qed.

Lemma hexPairs_hexOfBytes (bytes : ByteArray) :
  hexPairs (hexOfBytes bytes) = Ok bytes.
Proof.
  induction bytes as [|b bs IH]; [reflexivity|].
  destruct (hexes_digits b) as (l & r & E & Hl & Hr).
  cbn [hexOfBytes]. rewrite E. cbn [append hexPairs].
  rewrite Hl, Hr, IH. cbn [bindR]. now rewrite byteOfN_to_N.
Qed.

Lemma length_hexOfBytes (bytes : ByteArray) :
  String.length (hexOfBytes bytes) = (2 * List.length bytes)%nat.
Proof.
  induction bytes as [|b bs IH]; [reflexivity|].
  destruct (hexes_digits b) as (l & r & E & _).
  cbn [hexOfBytes]. rewrite E. cbn [append String.length List.length].
  rewrite IH. lia.
Qed.

Lemma odd_double (n : nat) : Nat.odd (2 * n) = false.
Proof.
  rewrite <- Nat.negb_even, Nat.even_mul. reflexivity.
Qed.

Lemma hexToBytes_bytesToHex (bytes : ByteArray) :
  hexToBytes (bytesToHex bytes) = Ok bytes.
Proof.
  unfold hexToBytes, bytesToHex. cbn [append slice].
  rewrite length_hexOfBytes, odd_double. apply hexPairs_hexOfBytes.
Qed.

Lemma allHexDigits_hexOfBytes (bytes : ByteArray) :
  allHexDigits (hexOfBytes bytes) = true.
Proof.
  induction bytes as [|b bs IH]; [reflexivity|].
  destruct (hexes_digits b) as (l & r & E & Hl & Hr).
  cbn [hexOfBytes]. rewrite E. cbn [append allHexDigits].
  now rewrite Hl, Hr.
Qed.

Lemma toBytes_bytesToHex (bytes : ByteArray) :
  toBytes (bytesToHex bytes) = Ok bytes.
Proof.
  unfold toBytes.
  assert (E : isHex (bytesToHex bytes) = true)
    by apply allHexDigits_hexOfBytes.
  rewrite E. apply hexToBytes_bytesToHex.
Qed.

Lemma hexPairs_total (digits : string) :
  allHexDigits digits = true -> exists bytes, hexPairs digits = Ok bytes.
Proof.
  remember (String.length digits) as n eqn:Hn.
  revert digits Hn.
  induction n as [n IH] using lt_wf_ind. intros digits Hn Hd.
  destruct digits as [|l [|r rest]]; try (eexists; reflexivity).
  cbn [allHexDigits] in Hd. cbn [hexPairs].
  destruct (charCodeToBase16 l); [|discriminate].
  destruct (charCodeToBase16 r); [|discriminate].
  assert (Hlt : (String.length rest < n)%nat) by (subst n; cbn; lia).
  destruct (IH _ Hlt rest eq_refl Hd) as [bs E].
  rewrite E. eexists; reflexivity.
Qed.

Lemma isHex_inv (value : string) :
  isHex value = true ->
  exists digits, value = "0x" ++ digits /\ allHexDigits digits = true.
Proof.
  destruct value as [|c0 [|c1 digits]]; cbn; try discriminate.
  - destruct c0 as [[] [] [] [] [] [] [] []]; discriminate.
  - destruct c0 as [[] [] [] [] [] [] [] []]; try discriminate.
    destruct c1 as [[] [] [] [] [] [] [] []]; try discriminate.
    intros E. now exists digits.
Qed.

(** [toBytes] never throws: a string that [isHex] holds digits only. *)
Lemma toBytes_total (value : string) : exists bytes, toBytes value = Ok bytes.
Proof.
  unfold toBytes. destruct (isHex value) eqn:E; [|eexists; reflexivity].
  destruct (isHex_inv _ E) as (digits & -> & Hd).
  unfold hexToBytes. cbn [append slice].
  destruct (Nat.odd (String.length digits)); apply hexPairs_total.
  - cbn [allHexDigits]. exact Hd.
  - exact Hd.
Qed.

(** ** The query parameters *)

Lemma numberIs_true (n : JsNumber) (k : Z) :
  numberIs n k = true <-> n = JsInt k.
Proof.
  destruct n as [|z|]; cbn; try (split; discriminate).
  rewrite Z.eqb_eq. split; congruence.
Qed.

Lemma numberIs_false (n : JsNumber) (k : Z) :
  numberIs n k = false <-> n <> JsInt k.
Proof.
  rewrite <- numberIs_true. destruct (numberIs n k); split; congruence.
Qed.

Section Validation.
Context `{W : World}.

Lemma fetch_validate_respond (request : Request.t) (r : Response.t) :
  Index.validate request = Respond r -> Index.fetch request = Some r.
Proof.
  intros E. unfold Index.fetch, Index.handler. now rewrite E.
Qed.

(** What [validate] does, case by case. *)
Lemma validate_spec (request : Request.t) :
  let l1ChainId := Number (Request.chainId request) in
  if stringFalsy (Request.txHash request) || numberFalsy l1ChainId
  then Index.validate request
       = Respond (errorResponse "Missing txHash or chainId" 400)
  else if numberIs l1ChainId 1 || numberIs l1ChainId 11155111
  then Index.validate request
       = Next (orElse (Request.txHash request) "", l1ChainId)
  else Index.validate request = Respond (errorResponse "Invalid chainId" 400).
Proof.
  cbv zeta. unfold Index.validate.
  destruct (stringFalsy _ || numberFalsy _); [reflexivity|].
  destruct (numberIs _ 1), (numberIs _ 11155111); reflexivity.
Qed.

(** C8.  Only the chain ids 1 and 11155111 pass the handler's checks: a
    request whose chain id is any other number, or that lacks [chainId]
    or [txHash], is answered with status 400; the requests that pass are
    those with one of the two ids; and for chain id 5 (and a [txHash])
    the body of the answer is the JSON of an error whose message is
    ["Invalid chainId"]. *)
Theorem chainId_validation (request : Request.t) :
  let l1ChainId := Number (Request.chainId request) in
  ((l1ChainId <> JsInt 1 /\ l1ChainId <> JsInt 11155111)
   \/ Request.txHash request = None
   \/ Request.chainId request = None ->
   exists r, Index.fetch request = Some r /\ Response.status r = 400)
  /\ (forall hash n,
        Index.validate request = Next (hash, n) ->
        n = l1ChainId /\ (n = JsInt 1 \/ n = JsInt 11155111))
  /\ (l1ChainId = JsInt 1 \/ l1ChainId = JsInt 11155111 ->
      stringFalsy (Request.txHash request) = false ->
      Index.validate request
      = Next (orElse (Request.txHash request) "", l1ChainId))
  /\ (l1ChainId = JsInt 5 ->
      stringFalsy (Request.txHash request) = false ->
      exists r, Index.fetch request = Some r
                /\ Response.status r = 400
                /\ Response.body r = stringify "error" "Invalid chainId"
                /\ contains (Response.body r) "Invalid chainId").
Proof.
  cbv zeta. pose proof (validate_spec request) as V. cbv zeta in V.
  split; [|split; [|split]].
  - intros Hbad.
    assert (Hcase :
      stringFalsy (Request.txHash request)
        || numberFalsy (Number (Request.chainId request)) = true
      \/ (numberIs (Number (Request.chainId request)) 1 = false
          /\ numberIs (Number (Request.chainId request)) 11155111 = false)).
    { destruct Hbad as [[H1 H2] | [Hh | Hc]].
      - right. now rewrite !numberIs_false.
      - left. now rewrite Hh.
      - left. rewrite Hc. cbn. apply orb_true_r. }
    destruct Hcase as [Hm | [H1 H2]].
    + rewrite Hm in V. eexists. split.
      * apply fetch_validate_respond, V.
      * reflexivity.
    + destruct (stringFalsy _ || numberFalsy _).
      * eexists. split; [apply fetch_validate_respond, V | reflexivity].
      * rewrite H1, H2 in V. cbn in V. eexists.
        split; [apply fetch_validate_respond, V | reflexivity].
  - intros hash n E.
    destruct (stringFalsy _ || numberFalsy _); [congruence|].
    destruct (numberIs _ 1) eqn:H1; cbn in V.
    + rewrite V in E. inversion E; subst. apply numberIs_true in H1. auto.
    + destruct (numberIs _ 11155111) eqn:H2; [|congruence].
      rewrite V in E. inversion E; subst. apply numberIs_true in H2. auto.
  - intros [E | E] Hh; rewrite E, Hh in V; rewrite E; exact V.
  - intros E5 Hh. rewrite E5, Hh in V. cbn in V.
    eexists. split; [apply fetch_validate_respond, V|].
    split; [reflexivity|]. split; [reflexivity|].
    exists (String "{" (quoteJSONString "error" ++ ":"
                        ++ String quotationMark EmptyString)).
    exists (String quotationMark "}"). reflexivity.
Qed.
End Validation.

(** A request for chain id 5 in the demo world. *)
Lemma chainId_validation_witness :
  exists r, Index.fetch (W := Demo.world) (Demo.request "0x01" "5") = Some r
            /\ Response.status r = 400
            /\ Response.body r = stringify "error" "Invalid chainId"
            /\ contains (Response.body r) "Invalid chainId".
Proof.
  apply (proj2 (proj2 (proj2 (chainId_validation (W := Demo.world)
                                                  (Demo.request "0x01" "5")))));
    reflexivity.
Defined.

(** ** The classifier *)

Lemma in_allAscii (c : ascii) : In c allAscii.
Proof.
  unfold allAscii. rewrite <- (ascii_nat_embedding c).
  apply in_map, in_seq. pose proof (nat_ascii_bounded c). lia.
Qed.

Lemma lowerChar_sameLetter (c d : ascii) :
  Ascii.eqb (lowerChar c) (lowerChar d) = sameLetter c d.
Proof.
  assert (A : forallb (fun c => forallb (fun d =>
                Bool.eqb (Ascii.eqb (lowerChar c) (lowerChar d))
                         (sameLetter c d)) allAscii) allAscii = true)
    by (vm_compute; reflexivity).
  rewrite forallb_forall in A. specialize (A c (in_allAscii c)).
  rewrite forallb_forall in A. specialize (A d (in_allAscii d)).
  now apply Bool.eqb_prop.
Qed.

(** Comparing the lower-case forms is comparing up to the case of
    letters. *)
Lemma toLowerCase_eqb (s t : string) :
  String.eqb (toLowerCase s) (toLowerCase t) = equalIgnoringCase s t.
Proof.
  revert t. induction s as [|c s IH]; intros [|d t]; try reflexivity.
  cbn [toLowerCase equalIgnoringCase String.eqb].
  rewrite <- lowerChar_sameLetter, <- IH.
  destruct (Ascii.eqb (lowerChar c) (lowerChar d)); reflexivity.
Qed.

Lemma sentToInbox_spec (transaction : Transaction.t) :
  Index.sentToInbox transaction = true
  <-> exists recipient,
        Transaction.to transaction = Some recipient
        /\ equalIgnoringCase recipient Index.FACET_INBOX_ADDRESS = true.
Proof.
  unfold Index.sentToInbox.
  destruct (Transaction.to transaction) as [a|]; cbn [option_map].
  - rewrite toLowerCase_eqb. split.
    + intros E. now exists a.
    + intros (r & [= <-] & E). exact E.
  - split; [discriminate | intros (r & E & _); discriminate].
Qed.

(** C6.  The handler goes the direct way exactly when the transaction has
    a recipient that is the inbox address up to the case of letters; every
    other transaction goes the way of the event.  The same holds of the
    earlier handler. *)
Theorem classification `{W : World}
        (l1PublicClient : PublicClient) (l1ChainId : JsNumber)
        (l1TransactionHash : string) (transaction : Transaction.t)
        (fctMintRate : Z) :
  let toInbox :=
    exists recipient,
      Transaction.to transaction = Some recipient
      /\ equalIgnoringCase recipient Index.FACET_INBOX_ADDRESS = true in
  (toInbox <-> Index.sentToInbox transaction = true)
  /\ (toInbox ->
      Index.derive l1PublicClient l1ChainId l1TransactionHash transaction
                   fctMintRate
      = Index.directPath l1ChainId transaction fctMintRate
      /\ Part000.derive l1PublicClient l1TransactionHash transaction
         = Part000.directPath transaction)
  /\ (~ toInbox ->
      Index.derive l1PublicClient l1ChainId l1TransactionHash transaction
                   fctMintRate
      = Index.eventPath l1PublicClient l1TransactionHash fctMintRate
      /\ Part000.derive l1PublicClient l1TransactionHash transaction
         = Part000.eventPath l1PublicClient l1TransactionHash).
Proof.
  cbv zeta. pose proof (sentToInbox_spec transaction) as S.
  split; [symmetry; exact S|].
  unfold Index.derive, Part000.derive.
  change (Part000.sentToInbox transaction)
    with (Index.sentToInbox transaction).
  split; intros T.
  - apply S in T. rewrite T. split; reflexivity.
  - destruct (Index.sentToInbox transaction).
    + exfalso. apply T, S. reflexivity.
    + split; reflexivity.
Qed.

(** The demo transaction names the inbox in lower case. *)
Lemma classification_witness :
  Index.derive (W := Demo.world) (Demo.client mainnet) (JsInt 1) "0x01"
               Demo.directTransaction Demo.MINT_RATE
  = Index.directPath (W := Demo.world) (JsInt 1) Demo.directTransaction
                     Demo.MINT_RATE
  /\ Part000.derive (W := Demo.world) (Demo.client mainnet) "0x01"
                    Demo.directTransaction
     = Part000.directPath (W := Demo.world) Demo.directTransaction.
Proof.
  apply (proj1 (proj2 (classification (W := Demo.world) (Demo.client mainnet)
                         (JsInt 1) "0x01" Demo.directTransaction
                         Demo.MINT_RATE))).
  exists "0x00000000000000000000000000000000000face7".
  split; reflexivity.
Defined.

(** C10.  A transaction without a recipient is compared without an error:
    the test of line 83 is [false], and the handler, like the earlier one,
    goes the way of the event. *)
Theorem absent_recipient `{W : World}
        (l1PublicClient : PublicClient) (l1ChainId : JsNumber)
        (l1TransactionHash : string) (transaction : Transaction.t)
        (fctMintRate : Z) :
  Transaction.to transaction = None ->
  Index.sentToInbox transaction = false
  /\ Part000.sentToInbox transaction = false
  /\ Index.derive l1PublicClient l1ChainId l1TransactionHash transaction
                  fctMintRate
     = Index.eventPath l1PublicClient l1TransactionHash fctMintRate
  /\ Part000.derive l1PublicClient l1TransactionHash transaction
     = Part000.eventPath l1PublicClient l1TransactionHash.
Proof.
  intros E. unfold Index.derive, Part000.derive.
  unfold Index.sentToInbox, Part000.sentToInbox. rewrite E.
  repeat split; reflexivity.
Qed.

Lemma absent_recipient_witness :
  Index.sentToInbox Demo.creationTransaction = false
  /\ Part000.sentToInbox Demo.creationTransaction = false
  /\ Index.derive (W := Demo.world) (Demo.client mainnet) (JsInt 1) "0x05"
                  Demo.creationTransaction Demo.MINT_RATE
     = Index.eventPath (W := Demo.world) (Demo.client mainnet) "0x05"
                       Demo.MINT_RATE
  /\ Part000.derive (W := Demo.world) (Demo.client mainnet) "0x05"
                    Demo.creationTransaction
     = Part000.eventPath (W := Demo.world) (Demo.client mainnet) "0x05".
Proof.
  apply (absent_recipient (W := Demo.world)). reflexivity.
Defined.

(** ** The block of the mint rate *)

Lemma NumberOfBigInt_safe (b : Z) :
  0 <= b <= MAX_SAFE_INTEGER -> NumberOfBigInt b = Some b.
Proof.
  intros Hb. unfold NumberOfBigInt, isSafeInteger.
  rewrite Z.abs_eq by lia.
  destruct (Z.leb_spec b MAX_SAFE_INTEGER); [reflexivity | lia].
Qed.

Lemma numberSub_safe (a b : Z) :
  0 <= a <= MAX_SAFE_INTEGER -> 0 <= b <= MAX_SAFE_INTEGER ->
  numberSub a b = Some (a - b).
Proof.
  intros Ha Hb. unfold numberSub, isSafeInteger.
  destruct (Z.leb_spec (Z.abs (a - b)) MAX_SAFE_INTEGER); [reflexivity | lia].
Qed.

Lemma targetL2BlockNumber_safe
      (latestL2Block transactionBlock : Block.t) :
  0 <= Block.timestamp transactionBlock <= MAX_SAFE_INTEGER ->
  0 <= Block.timestamp latestL2Block <= MAX_SAFE_INTEGER ->
  Index.targetL2BlockNumber latestL2Block transactionBlock
  = Some (Block.number latestL2Block
          - (Block.timestamp latestL2Block
             - Block.timestamp transactionBlock) / 12).
Proof.
  intros H1 H2. unfold Index.targetL2BlockNumber.
  rewrite (NumberOfBigInt_safe _ H1), (NumberOfBigInt_safe _ H2).
  rewrite (numberSub_safe _ _ H2 H1). reflexivity.
Qed.

(** C4.  With both timestamps in the range of exact [number]s, the block
    at which [lookup] reads the mint rate -- the contract's [fctMintRate]
    on the L2 chain of the request -- is the number of the L2 head less
    the floor of a twelfth of the seconds between the block of the L1
    transaction and the L2 head; with equal timestamps it is the head. *)
Theorem mint_rate_block `{W : World}
        (l1TransactionHash : string) (l1ChainId : JsNumber)
        (transaction : Transaction.t)
        (transactionBlock latestL2Block : Block.t) :
  let l1PublicClient :=
    createPublicClient (if numberIs l1ChainId 1 then mainnet else sepolia) in
  let l2PublicClient :=
    createPublicClient
      (if numberIs l1ChainId 1 then facetMainnet else facetSepolia) in
  let T_l1 := Block.timestamp transactionBlock in
  let T_tip := Block.timestamp latestL2Block in
  let N_tip := Block.number latestL2Block in
  let targetBlock := N_tip - (T_tip - T_l1) / 12 in
  l1ChainId = JsInt 1 \/ l1ChainId = JsInt 11155111 ->
  getTransaction l1PublicClient l1TransactionHash = Ok (Some transaction) ->
  getBlock l1PublicClient (Transaction.blockHash transaction)
  = Ok transactionBlock ->
  getBlock l2PublicClient None = Ok latestL2Block ->
  0 <= T_l1 <= MAX_SAFE_INTEGER ->
  0 <= T_tip <= MAX_SAFE_INTEGER ->
  Index.targetL2BlockNumber latestL2Block transactionBlock = Some targetBlock
  /\ Index.lookup l1TransactionHash l1ChainId
     = (fctMintRate <~
          await (readContract l2PublicClient
                   GetFctMintRate.L2_L1_BLOCK_CONTRACT "fctMintRate"
                   (Some targetBlock)) ;;
        Next (l1PublicClient, transaction, fctMintRate))
  /\ (T_l1 = T_tip -> targetBlock = N_tip).
Proof.
  cbv zeta. intros Hn Ht Hb1 Hb2 H1 H2.
  pose proof (targetL2BlockNumber_safe _ _ H1 H2) as T.
  split; [exact T|]. split.
  - unfold Index.lookup. rewrite Ht. cbn [await bindF].
    rewrite Hb1, Hb2. cbn [await bindF]. rewrite T. cbn [exactly bindF].
    unfold GetFctMintRate.getFctMintRate.
    destruct Hn as [-> | ->]; reflexivity.
  - intros ->. rewrite Z.sub_diag. cbn. lia.
Qed.

(** In the demo world the head of the L2 chain is 125 seconds ahead: ten
    blocks back. *)
Lemma mint_rate_block_witness :
  Index.targetL2BlockNumber Demo.l2Head Demo.l1Block
  = Some (5000 - (1700000125 - 1700000000) / 12)
  /\ Index.lookup (W := Demo.world) "0x01" (JsInt 1)
     = (fctMintRate <~
          await (readContract (Demo.client facetMainnet)
                   GetFctMintRate.L2_L1_BLOCK_CONTRACT "fctMintRate"
                   (Some (5000 - (1700000125 - 1700000000) / 12))) ;;
        Next (Demo.client mainnet, Demo.directTransaction, fctMintRate))
  /\ (1700000000 = 1700000125 ->
      5000 - (1700000125 - 1700000000) / 12 = 5000).
Proof.
  apply (mint_rate_block (W := Demo.world) "0x01" (JsInt 1)
           Demo.directTransaction Demo.l1Block Demo.l2Head);
    try reflexivity.
  - left. reflexivity.
  - cbn. unfold MAX_SAFE_INTEGER. lia.
  - cbn. unfold MAX_SAFE_INTEGER. lia.
Defined.

(** ** Reading a run backwards *)

Lemma bindR_Ok {A B} (r : JsResult A) (k : A -> JsResult B) (b : B) :
  bindR r k = Ok b -> exists a, r = Ok a /\ k a = Ok b.
Proof. destruct r as [a|m]; [now exists a | discriminate]. Qed.

Lemma bindF_Next {A B} (c : Flow A) (k : A -> Flow B) (b : B) :
  bindF c k = Next b -> exists a, c = Next a /\ k a = Next b.
Proof. destruct c as [a| | |]; try discriminate. now exists a. Qed.

Lemma bindF_Respond {A B} (c : Flow A) (k : A -> Flow B) (r : Response.t) :
  bindF c k = Respond r ->
  c = Respond r \/ exists a, c = Next a /\ k a = Respond r.
Proof.
  destruct c as [a|r'| |]; try discriminate.
  - right. now exists a.
  - intros [= ->]. now left.
Qed.

Lemma await_Next {A} (r : JsResult A) (a : A) : await r = Next a -> r = Ok a.
Proof. destruct r; [intros [= ->]; reflexivity | discriminate]. Qed.

Lemma await_not_Respond {A} (r : JsResult A) (resp : Response.t) :
  await r <> Respond resp.
Proof. destruct r; discriminate. Qed.

Lemma exactly_not_Respond {A} (o : option A) (resp : Response.t) :
  exactly o <> Respond resp.
Proof. destruct o; discriminate. Qed.

(** Takes a hypothesis [bindF c k = Next b] apart. *)
Ltac next_inv H :=
  let a := fresh "a" in
  let E := fresh "E" in
  apply bindF_Next in H; destruct H as (a & E & H);
  try (apply await_Next in E).

Ltac ok_inv H :=
  let a := fresh "a" in
  let E := fresh "E" in
  apply bindR_Ok in H; destruct H as (a & E & H).

Section Runs.
Context `{W : World}.



Lemma decodeEvent_Next (facetEvent : Log.t) (fctMintRate : Z)
      (d : Derived.t) :
  Index.decodeEvent facetEvent fctMintRate = Next d ->
  exists fromAddress e0 toAddressBytes valueHex gasLimitHex data e5 rest
         value gasLimit bytes,
    applyL1ToL2Alias (Log.address facetEvent) = Ok fromAddress
    /\ fromRlp ("0x" ++ slice 4 (Log.data facetEvent))
       = Ok (Arr (e0 :: toAddressBytes :: valueHex :: gasLimitHex :: data
                     :: e5 :: rest))
    /\ Index.bigIntOrZero valueHex = Ok value
    /\ Index.bigIntOrZero gasLimitHex = Ok gasLimit
    /\ toBytes (Log.data facetEvent) = Ok bytes
    /\ d = {| Derived.fromAddress := fromAddress;
              Derived.to := if (jsLength toAddressBytes <=? 2)%nat then None
                            else Some toAddressBytes;
              Derived.value := Some value;
              Derived.data := Some data;
              Derived.gasLimit := Some gasLimit;
              Derived.fctMintAmount :=
                Z.of_N (blength bytes) * 8 * fctMintRate |}.
Proof.
  unfold Index.decodeEvent. intros H. next_inv H. next_inv H.
  destruct a0 as [|[|e0 [|e1 [|e2 [|e3 [|e4 [|e5 rest]]]]]]];
    try discriminate.
  next_inv H. next_inv H. next_inv H. injection H as <-.
  do 11 eexists. repeat (split; [eassumption|]). reflexivity.
Qed.





End Runs.

(** ** RLP: what the encoder writes, the decoder reads *)

Local Close Scope Z_scope.

Lemma to_N_byteOfN (n : N) : (n < 256)%N -> Byte.to_N (byteOfN n) = n.
Proof.
  intros Hn. unfold byteOfN.
  destruct (Byte.of_N n) as [b|] eqn:E.
  - now apply Byte.to_of_N.
  - apply Byte.of_N_None_iff in E. lia.
Qed.

Lemma length_pushUint (size : nat) (n : N) :
  List.length (pushUint size n) = size.
Proof. induction size; cbn; congruence. Qed.

Lemma uintOfBytes_pushUint (size : nat) (n acc : N) :
  uintOfBytes acc (pushUint size n)
  = (acc * 256 ^ N.of_nat size + n mod 256 ^ N.of_nat size)%N.
Proof.
  revert acc. induction size as [|k IH]; intros acc.
  - cbn. rewrite N.mod_1_r. lia.
  - cbn [pushUint uintOfBytes]. rewrite IH.
    rewrite to_N_byteOfN by (apply N.mod_lt; discriminate).
    rewrite Nat2N.inj_succ, N.pow_succ_r'.
    rewrite (N.mul_comm 256 (256 ^ N.of_nat k)).
    rewrite N.Div0.mod_mul_r. lia.
Qed.

Lemma firstn_exact {A} (l r : list A) (n : nat) :
  List.length l = n -> firstn n (l ++ r)%list = l.
Proof.
  intros <-. rewrite firstn_app, Nat.sub_diag, firstn_all. cbn.
  apply app_nil_r.
Qed.

Lemma skipn_exact {A} (l r : list A) (n : nat) :
  List.length l = n -> skipn n (l ++ r)%list = r.
Proof.
  intros <-. rewrite skipn_app, Nat.sub_diag, skipn_all. reflexivity.
Qed.

Lemma readUint_pushUint (size : nat) (n : N) (rest : ByteArray) :
  (n < 256 ^ N.of_nat size)%N ->
  readUint size (pushUint size n ++ rest)%list = Ok (n, rest).
Proof.
  intros Hn. unfold readUint.
  rewrite length_app, length_pushUint.
  destruct (Nat.leb_spec size (size + List.length rest)); [|lia].
  rewrite firstn_exact, skipn_exact by apply length_pushUint.
  rewrite uintOfBytes_pushUint, N.mod_small by assumption. reflexivity.
Qed.

Lemma readBytes_exact (bytes rest : ByteArray) :
  readBytes (blength bytes) (bytes ++ rest)%list = Ok (bytes, rest).
Proof.
  unfold readBytes, blength. rewrite length_app.
  destruct (N.leb_spec (N.of_nat (List.length bytes))
              (N.of_nat (List.length bytes + List.length rest))); [|lia].
  rewrite Nat2N.id, firstn_exact, skipn_exact; reflexivity.
Qed.

Lemma getSizeOfLength_Ok (len size : N) :
  getSizeOfLength len = Ok size ->
  (1 <= size <= 4 /\ len < 256 ^ size)%N.
Proof.
  unfold getSizeOfLength.
  destruct (N.ltb_spec len (2 ^ 8)); [intros [= <-]; split; [lia|assumption]|].
  destruct (N.ltb_spec len (2 ^ 16)); [intros [= <-]; split; [lia|assumption]|].
  destruct (N.ltb_spec len (2 ^ 24)); [intros [= <-]; split; [lia|assumption]|].
  destruct (N.ltb_spec len (2 ^ 32)); [intros [= <-]; split; [lia|assumption]|].
  discriminate.
Qed.

(** Reading back a header: the prefix byte, then [readLength]. *)
Lemma readLength_header (offset len size : N) (rest : ByteArray) :
  offset = 128%N \/ offset = 192%N ->
  getSizeOfLength len = Ok size ->
  exists prefix tail,
    header offset len size = byteOfN prefix :: tail
    /\ (offset <= prefix < offset + 64)%N
    /\ readLength (tail ++ rest)%list prefix offset = Ok (len, rest).
Proof.
  intros Ho Hs. apply getSizeOfLength_Ok in Hs. destruct Hs as [Hs Hl].
  unfold header. destruct (N.leb_spec len 55) as [Hle|Hgt].
  - exists (offset + len)%N, []. split; [reflexivity|]. split; [lia|].
    unfold readLength. cbn [app].
    destruct Ho as [-> | ->].
    + destruct (N.ltb_spec (128 + len) 128); [lia|]. cbn [N.eqb andb].
      destruct (N.leb_spec (128 + len) (128 + 55)); [|lia].
      replace (128 + len - 128)%N with len by lia. reflexivity.
    + cbn [N.eqb andb Pos.eqb].
      destruct (N.leb_spec (192 + len) (192 + 55)); [|lia].
      replace (192 + len - 192)%N with len by lia. reflexivity.
  - exists (offset + 55 + size)%N, (pushUint (N.to_nat size) len).
    split; [reflexivity|]. split; [lia|].
    assert (R : readUint (N.to_nat size)
                  (pushUint (N.to_nat size) len ++ rest)%list = Ok (len, rest)).
    { apply readUint_pushUint. now rewrite N2Nat.id. }
    unfold readLength.
    assert (Hsz : (size = 1 \/ size = 2 \/ size = 3 \/ size = 4)%N) by lia.
    destruct Ho as [-> | ->];
      destruct Hsz as [-> | [-> | [-> | ->]]]; exact R.
Qed.

Lemma getEncodableBytes_shape (bytes enc : ByteArray) :
  getEncodableBytes bytes = Ok enc ->
  (exists b, bytes = [b] /\ (Byte.to_N b < 128)%N /\ enc = [b])
  \/ exists size,
       getSizeOfLength (blength bytes) = Ok size
       /\ enc = (header 128 (blength bytes) size ++ bytes)%list.
Proof.
  unfold getEncodableBytes. intros H. ok_inv H. rename a into size.
  assert (G : (if (blength bytes <=? 55)%N
               then Ok (byteOfN (128 + blength bytes) :: bytes)
               else Ok (byteOfN (128 + 55 + size)
                          :: pushUint (N.to_nat size) (blength bytes)
                          ++ bytes)%list) = Ok enc ->
              enc = (header 128 (blength bytes) size ++ bytes)%list).
  { unfold header. destruct (blength bytes <=? 55)%N; intros [= <-];
      reflexivity. }
  destruct bytes as [|b [|b' bs]].
  - right. exists size. auto.
  - destruct (N.ltb_spec (Byte.to_N b) 128).
    + left. exists b. injection H as <-. auto.
    + right. exists size. split; [assumption|]. injection H as <-.
      reflexivity.
  - right. exists size. auto.
Qed.

Lemma getEncodableBytes_nonempty (bytes enc : ByteArray) :
  getEncodableBytes bytes = Ok enc -> (1 <= List.length enc)%nat.
Proof.
  intros H. apply getEncodableBytes_shape in H.
  destruct H as [(b & _ & _ & ->) | (size & _ & ->)]; [cbn; lia|].
  unfold header. destruct (_ <=? _)%N; cbn; lia.
Qed.

(** Decoding what [getEncodableBytes] wrote gives the bytes back. *)
Lemma fromRlpCursor_bytes (fuel : nat) (total : N)
      (bytes enc rest : ByteArray) :
  getEncodableBytes bytes = Ok enc ->
  total <> 0%N ->
  fromRlpCursor (S fuel) total (enc ++ rest)%list
  = Some (Ok (Item (bytesToHex bytes), rest)).
Proof.
  intros H Ht. apply getEncodableBytes_shape in H.
  cbn [fromRlpCursor]. apply N.eqb_neq in Ht. rewrite Ht.
  destruct H as [(b & -> & Hb & ->) | (size & Hs & ->)].
  - cbn [app readByte]. apply N.ltb_lt in Hb. rewrite Hb.
    assert (Hb' : (Byte.to_N b <? 192)%N = true)
      by (apply N.ltb_lt; apply N.ltb_lt in Hb; lia).
    rewrite Hb'. unfold readLength. rewrite Hb. cbn [N.eqb Pos.eqb andb bindR].
    change (b :: rest) with ([b] ++ rest)%list.
    change 1%N with (blength [b]). rewrite readBytes_exact. reflexivity.
  - destruct (readLength_header 128 (blength bytes) size (bytes ++ rest)%list)
      as (prefix & tail & -> & Hp & R); [now left | assumption |].
    rewrite <- app_assoc. cbn [app readByte].
    rewrite to_N_byteOfN by lia.
    destruct (N.ltb_spec prefix 128); [lia|].
    destruct (N.ltb_spec prefix 192); [|lia].
    rewrite R. cbn [bindR]. rewrite readBytes_exact. reflexivity.
Qed.

Lemma blength_app (a b : ByteArray) :
  blength (a ++ b)%list = (blength a + blength b)%N.
Proof. unfold blength. rewrite length_app. lia. Qed.

Lemma readList_S (fuel : nat) (total start len : N) (cursor : ByteArray)
      (value : list (RecursiveArray Hex)) :
  readList (S fuel) total start len cursor value
  = if (start - blength cursor <? len)%N then
      match fromRlpCursor fuel total cursor with
      | None => None
      | Some (Throw m) => Some (Throw m)
      | Some (Ok (item, cursor)) =>
        readList fuel total start len cursor (value ++ [item])%list
      end
    else Some (Ok (value, cursor)).
Proof. reflexivity. Qed.

(** The loop of [readList] over the encodings of byte strings. *)
Lemma readList_bytes (total : N) (bss encs : list ByteArray) :
  Forall2 (fun b e => getEncodableBytes b = Ok e) bss encs ->
  total <> 0%N ->
  forall (fuel : nat) (start len : N) (trailing : ByteArray)
         (value : list (RecursiveArray Hex)),
    (List.length encs < fuel)%nat ->
    (blength (List.concat encs ++ trailing)%list <= start)%N ->
    len = (start - blength (List.concat encs ++ trailing)%list
           + blength (List.concat encs))%N ->
    readList fuel total start len (List.concat encs ++ trailing)%list value
    = Some (Ok ((value ++ List.map (fun b => Item (bytesToHex b)) bss)%list,
                trailing)).
Proof.
  intros F Ht. induction F as [|b e bs es He F IH];
    intros fuel start len trailing value Hf Hs Hl.
  - destruct fuel as [|fuel]; [cbn in Hf; lia|].
    cbn [readList List.concat app List.map]. cbn [List.concat app] in Hl.
    destruct (N.ltb_spec (start - blength trailing) len);
      [unfold blength in *; cbn in *; lia|].
    now rewrite app_nil_r.
  - destruct fuel as [|fuel]; [cbn in Hf; lia|].
    destruct fuel as [|fuel]; [cbn in Hf; lia|].
    pose proof (getEncodableBytes_nonempty _ _ He) as Hne.
    cbn [List.concat] in *. rewrite <- app_assoc in *.
    repeat rewrite blength_app in Hs. repeat rewrite blength_app in Hl.
    assert (Hne' : (1 <= blength e)%N) by (unfold blength; lia).
    rewrite readList_S, !blength_app.
    destruct (N.ltb_spec (start - (blength e + (blength (List.concat es)
                                               + blength trailing))) len);
      [|exfalso; lia].
    rewrite (fromRlpCursor_bytes fuel total b e _ He Ht). cbv beta iota.
    rewrite (IH (S fuel) start len trailing
                (value ++ [Item (bytesToHex b)])%list).
    + cbn [List.map]. now rewrite <- app_assoc.
    + cbn in Hf. lia.
    + rewrite blength_app. lia.
    + rewrite blength_app. lia.
Qed.

Lemma getEncodableList_shape (encs : list ByteArray) (enc : ByteArray) :
  getEncodableList encs = Ok enc ->
  exists size,
    getSizeOfLength (blength (List.concat encs)) = Ok size
    /\ enc = (header 192 (blength (List.concat encs)) size ++ List.concat encs)%list.
Proof.
  unfold getEncodableList. intros H. ok_inv H. exists a.
  split; [assumption|]. unfold header.
  destruct (_ <=? _)%N; injection H as <-; reflexivity.
Qed.

Lemma length_concat_nonempty (encs : list ByteArray) :
  Forall (fun e => (1 <= List.length e)%nat) encs ->
  (List.length encs <= List.length (List.concat encs))%nat.
Proof.
  induction 1 as [|e es He F IH]; [cbn; lia|].
  cbn [List.concat List.length]. rewrite length_app. lia.
Qed.

(** Decoding what [getEncodableList] wrote over encoded byte strings
    gives the byte strings back. *)
Lemma fromRlpCursor_list (fuel : nat) (total : N)
      (bss encs : list ByteArray) (enc trailing : ByteArray) :
  Forall2 (fun b e => getEncodableBytes b = Ok e) bss encs ->
  getEncodableList encs = Ok enc ->
  total <> 0%N ->
  (List.length encs < fuel)%nat ->
  fromRlpCursor (S fuel) total (enc ++ trailing)%list
  = Some (Ok (Arr (List.map (fun b => Item (bytesToHex b)) bss), trailing)).
Proof.
  intros F H Ht Hf. apply getEncodableList_shape in H.
  destruct H as (size & Hs & ->).
  destruct (readLength_header 192 (blength (List.concat encs)) size
              (List.concat encs ++ trailing)%list)
    as (prefix & tail & -> & Hp & R); [now right | assumption |].
  cbn [fromRlpCursor]. pose proof Ht as Ht'. apply N.eqb_neq in Ht'.
  rewrite Ht'. rewrite <- app_assoc. cbn [app readByte].
  rewrite to_N_byteOfN by lia.
  destruct (N.ltb_spec prefix 128); [lia|].
  destruct (N.ltb_spec prefix 192); [lia|].
  rewrite R.
  rewrite (readList_bytes total bss encs F Ht fuel _ _ trailing []);
    [reflexivity | assumption | lia | lia].
Qed.

Lemma mapM_getEncodable_items (hs : list Hex) (encs : list ByteArray) :
  mapM getEncodable (List.map Item hs) = Ok encs ->
  exists bss,
    mapM hexToBytes hs = Ok bss
    /\ Forall2 (fun b e => getEncodableBytes b = Ok e) bss encs.
Proof.
  revert encs. induction hs as [|h hs IH]; intros encs H.
  - injection H as <-. exists []. split; [reflexivity | constructor].
  - cbn [List.map mapM] in H. ok_inv H. ok_inv H. injection H as <-.
    cbn [getEncodable] in E. ok_inv E.
    destruct (IH _ E0) as (bss & M & F).
    exists (a1 :: bss). cbn [mapM]. rewrite E1, M. split; [reflexivity|].
    now constructor.
Qed.

(** [fromRlp] undoes [toRlp] on a list of hex strings: the members come
    back as the hex of their bytes. *)
Lemma fromRlp_toRlp (hs : list Hex) (rlp : Hex) :
  toRlp (Arr (List.map Item hs)) = Ok rlp ->
  exists bss,
    mapM hexToBytes hs = Ok bss
    /\ fromRlp rlp = Ok (Arr (List.map (fun b => Item (bytesToHex b)) bss)).
Proof.
  unfold toRlp. intros H. ok_inv H. injection H as <-. rename a into enc.
  cbn [getEncodable] in E. ok_inv E. rename a into encs.
  destruct (mapM_getEncodable_items _ _ E0) as (bss & M & F).
  exists bss. split; [assumption|].
  unfold fromRlp.
  assert (L : String.length (bytesToHex enc) = (2 * (1 + List.length enc))%nat).
  { unfold bytesToHex. cbn [append String.length].
    rewrite length_hexOfBytes. lia. }
  rewrite L, odd_double, andb_false_r, hexToBytes_bytesToHex. cbn [bindR].
  pose proof (getEncodableList_shape _ _ E) as (size & _ & Henc).
  assert (Hlen : (List.length encs < List.length enc)%nat).
  { assert (Fne : Forall (fun e => (1 <= List.length e)%nat) encs).
    { clear - F. induction F; constructor; auto.
      eapply getEncodableBytes_nonempty; eassumption. }
    apply length_concat_nonempty in Fne. subst enc.
    rewrite length_app. unfold header. destruct (_ <=? _)%N; cbn; lia. }
  replace (2 * List.length enc + 2)%nat
    with (S (2 * List.length enc + 1))%nat by lia.
  rewrite <- (app_nil_r enc) at 3.
  rewrite (fromRlpCursor_list _ _ bss encs enc [] F E);
    [reflexivity | unfold blength; lia | lia].
Qed.

Lemma readUint_length (size : nat) (cursor rest : ByteArray) (n : N) :
  readUint size cursor = Ok (n, rest) ->
  (List.length rest <= List.length cursor)%nat.
Proof.
  unfold readUint. destruct (_ <=? _)%nat; [|discriminate].
  intros [= _ <-]. rewrite length_skipn. lia.
Qed.

Lemma readLength_length (cursor rest : ByteArray) (prefix offset len : N) :
  readLength cursor prefix offset = Ok (len, rest) ->
  (List.length rest <= List.length cursor)%nat.
Proof.
  unfold readLength.
  repeat match goal with
         | |- (if ?c then _ else _) = _ -> _ => destruct c
         end;
    try (intros [= _ <-]; lia); try discriminate;
    apply readUint_length.
Qed.

Lemma readBytes_length (cursor bytes rest : ByteArray) (len : N) :
  readBytes len cursor = Ok (bytes, rest) ->
  List.length rest = (List.length cursor - N.to_nat len)%nat.
Proof.
  unfold readBytes.
  destruct (_ <=? _)%N; [|discriminate].
  intros [= _ <-]. apply length_skipn.
Qed.

Lemma fromRlpCursor_S (fuel : nat) (bytesLength : N) (cursor : ByteArray) :
  fromRlpCursor (S fuel) bytesLength cursor
  = if (bytesLength =? 0)%N then Some (Ok (Item (bytesToHex []), cursor))
    else
      match readByte cursor with
      | Throw m => Some (Throw m)
      | Ok (prefix, rest) =>
        let cursor := if (prefix <? 128)%N then cursor else rest in
        if (prefix <? 192)%N then
          Some ('(length, cursor) <- readLength cursor prefix 128 ;;
                '(bytes, cursor) <- readBytes length cursor ;;
                Ok (Item (bytesToHex bytes), cursor))
        else
          match readLength cursor prefix 192 with
          | Throw m => Some (Throw m)
          | Ok (length, cursor) =>
            match readList fuel bytesLength (blength cursor) length cursor []
            with
            | None => None
            | Some (Throw m) => Some (Throw m)
            | Some (Ok (value, cursor)) => Some (Ok (Arr value, cursor))
            end
          end
      end.
Proof. reflexivity. Qed.

(** With fuel beyond twice the unread bytes the decoder comes to an end,
    every item takes at least one byte, and the strings it yields are hex
    of bytes. *)
Lemma fromRlpCursor_fuel (total : N) :
  total <> 0%N ->
  forall fuel : nat,
    (forall cursor,
        (2 * List.length cursor < fuel)%nat ->
        exists r,
          fromRlpCursor fuel total cursor = Some r
          /\ forall item rest,
               r = Ok (item, rest) ->
               (List.length rest < List.length cursor)%nat /\ hexItems item)
    /\ (forall start len cursor value,
           (2 * List.length cursor + 1 < fuel)%nat ->
           Forall hexItems value ->
           exists r,
             readList fuel total start len cursor value = Some r
             /\ forall v rest,
                  r = Ok (v, rest) ->
                  (List.length rest <= List.length cursor)%nat
                  /\ Forall hexItems v).
Proof.
  intros Ht. apply N.eqb_neq in Ht.
  induction fuel as [|fuel [IHitem IHlist]].
  - split; intros; lia.
  - split.
    + intros cursor Hf. rewrite fromRlpCursor_S, Ht.
      destruct cursor as [|b rest]; [eexists; split; [reflexivity|];
                                     intros ? ? [=]|].
      cbn [readByte]. cbv zeta.
      destruct (N.ltb_spec (Byte.to_N b) 192) as [Hlt|Hge].
      * eexists. split; [reflexivity|]. intros item rest' E.
        apply bindR_Ok in E. destruct E as ([len c1] & R & E).
        apply bindR_Ok in E. destruct E as ([bs c2] & B & E).
        injection E as <- <-. split; [|constructor].
        apply readBytes_length in B.
        destruct (N.ltb_spec (Byte.to_N b) 128) as [Hs|Hs].
        -- unfold readLength in R.
           apply N.ltb_lt in Hs. rewrite Hs in R. cbn in R.
           injection R as <- <-. cbn [List.length] in *. lia.
        -- apply readLength_length in R. cbn [List.length]. lia.
      * destruct (N.ltb_spec (Byte.to_N b) 128); [lia|].
        destruct (readLength rest (Byte.to_N b) 192) as [[len c1]|m] eqn:R;
          [|eexists; split; [reflexivity|]; intros ? ? [=]].
        apply readLength_length in R.
        destruct (IHlist (blength c1) len c1 [])
          as (r & E & P); [cbn [List.length] in Hf; lia | constructor |].
        rewrite E. destruct r as [[v c2]|m].
        -- eexists. split; [reflexivity|]. intros item rest' [= <- <-].
           destruct (P _ _ eq_refl) as [P1 P2].
           split; [cbn [List.length]; lia | now constructor].
        -- eexists. split; [reflexivity|]. intros ? ? [=].
    + intros start len cursor value Hf Hv. rewrite readList_S.
      destruct (_ <? _)%N.
      * destruct (IHitem cursor) as (r & E & P); [lia|].
        rewrite E. destruct r as [[item c1]|m].
        -- destruct (P _ _ eq_refl) as [P1 P2].
           destruct (IHlist start len c1 (value ++ [item])%list)
             as (r' & E' & P'); [lia | |].
           { apply Forall_app. split; [assumption | now constructor]. }
           exists r'. split; [assumption|]. intros v rest' ->.
           destruct (P' _ _ eq_refl). split; [lia | assumption].
        -- eexists. split; [reflexivity|]. intros ? ? [=].
      * eexists. split; [reflexivity|]. intros v rest' [= <- <-].
        split; [lia | assumption].
Qed.

(** [fromRlp] never runs out of fuel: its last case is not reached. *)
Lemma fromRlp_fuel (bytes : ByteArray) :
  exists r,
    fromRlpCursor (2 * List.length bytes + 2) (blength bytes) bytes = Some r
    /\ forall item rest, r = Ok (item, rest) -> hexItems item.
Proof.
  destruct bytes as [|b bs].
  - eexists. split; [reflexivity|]. intros item rest [= <- _].
    constructor.
  - destruct (fromRlpCursor_fuel (blength (b :: bs)) ltac:(discriminate)
                (2 * List.length (b :: bs) + 2)) as [H _].
    destruct (H (b :: bs) ltac:(lia)) as (r & E & P).
    exists r. split; [assumption|]. intros item rest Hr.
    now destruct (P _ _ Hr).
Qed.

(** A byte string that [fromRlp] yields, at any depth, is the hex of some
    bytes. *)
Lemma fromRlp_hexItems (value : Hex) (decoded : RecursiveArray Hex) :
  fromRlp value = Ok decoded -> hexItems decoded.
Proof.
  unfold fromRlp. destruct (_ && _); [discriminate|].
  intros H. apply bindR_Ok in H. destruct H as (bytes & _ & H).
  destruct (fromRlp_fuel bytes) as (r & E & P). rewrite E in H.
  apply bindR_Ok in H. destruct H as ([item rest] & -> & H).
  injection H as <-. eapply P. reflexivity.
Qed.

(** ** Integers in hex *)



Lemma hexValue_of_hex_uint_acc (d : Hexadecimal.uint) (acc : positive) :
  hexValue (Npos acc) (HexadecimalString.NilEmpty.string_of_uint d)
  = Some (Npos (Pos.of_hex_uint_acc d acc)).
Proof.
  revert acc. induction d; intros acc; cbn [HexadecimalString.NilEmpty.string_of_uint
    hexValue Pos.of_hex_uint_acc]; try reflexivity;
    match goal with
    | |- context [charCodeToBase16 ?c] =>
      change (charCodeToBase16 c) with (Some (N_of_ascii c - 48)%N)
      || change (charCodeToBase16 c) with (Some (N_of_ascii c - 87)%N)
    end; cbv beta iota; rewrite <- IHd; f_equal; cbn; lia.
Qed.

Lemma hexValue_of_hex_uint (d : Hexadecimal.uint) :
  hexValue 0 (HexadecimalString.NilEmpty.string_of_uint d)
  = Some (Pos.of_hex_uint d).
Proof.
  induction d; cbn [HexadecimalString.NilEmpty.string_of_uint hexValue
                    Pos.of_hex_uint]; try reflexivity; try exact IHd;
    match goal with
    | |- context [charCodeToBase16 ?c] =>
      let v := eval vm_compute in (charCodeToBase16 c) in
      change (charCodeToBase16 c) with v
    end; cbv beta iota; apply hexValue_of_hex_uint_acc.
Qed.

Lemma hexValue_toString16 (n : N) : hexValue 0 (toString16 n) = Some n.
Proof.
  unfold toString16, HexadecimalString.NilZero.string_of_uint.
  rewrite <- (HexadecimalN.Unsigned.of_to n) at 2.
  generalize (N.to_hex_uint n) as d. intros d.
  destruct d; [reflexivity | ..];
    match goal with
    | |- hexValue 0 (HexadecimalString.NilEmpty.string_of_uint ?d) = _ =>
      exact (hexValue_of_hex_uint d)
    end.
Qed.

Lemma charCodeToBase16_bound (c : ascii) (d : N) :
  charCodeToBase16 c = Some d -> (d < 16)%N.
Proof.
  unfold charCodeToBase16.
  repeat match goal with
         | |- context [(?a <=? ?b)%N] => destruct (N.leb_spec a b)
         end; cbn [andb]; intros [= <-]; lia.
Qed.

(** The bytes of an even number of digits have the value of the digits. *)
Lemma hexPairs_value (n : nat) :
  forall (digits : string) (acc v : N),
    String.length digits = (2 * n)%nat ->
    hexValue acc digits = Some v ->
    exists bytes, hexPairs digits = Ok bytes /\ uintOfBytes acc bytes = v.
Proof.
  induction n as [|n IH]; intros digits acc v L H.
  - destruct digits; [|discriminate]. injection H as <-.
    exists []. split; reflexivity.
  - destruct digits as [|l [|r rest]]; try (cbn in L; lia).
    cbn [hexValue] in H. cbn [hexPairs].
    destruct (charCodeToBase16 l) as [nl|] eqn:El; [|discriminate].
    destruct (charCodeToBase16 r) as [nr|] eqn:Er; [|discriminate].
    apply charCodeToBase16_bound in El, Er.
    destruct (IH rest _ _ ltac:(cbn in L; lia) H) as (bs & P & U).
    rewrite P. eexists. split; [reflexivity|].
    cbn [uintOfBytes]. rewrite to_N_byteOfN by lia.
    rewrite <- U. f_equal. lia.
Qed.

Lemma hexToBytes_value (digits : string) (v : N) :
  hexValue 0 digits = Some v ->
  exists bytes, hexToBytes ("0x" ++ digits) = Ok bytes
                /\ uintOfBytes 0 bytes = v.
Proof.
  intros H. unfold hexToBytes. cbn [append slice].
  destruct (Nat.odd (String.length digits)) eqn:O.
  - apply Nat.odd_spec in O. destruct O as [k Hk].
    apply (hexPairs_value (S k)); [cbn [String.length]; lia|].
    exact H.
  - assert (E : Nat.even (String.length digits) = true)
      by (rewrite <- Nat.negb_odd, O; reflexivity).
    apply Nat.even_spec in E. destruct E as [k Hk].
    now apply (hexPairs_value k).
Qed.

(** The decoder reads back the integer [toHex] wrote. *)
Lemma bigEndian_bigintOrEmpty (v : Z) (hex : Hex) :
  SpecModel.bigintOrEmpty v = Ok hex ->
  exists bytes,
    hexToBytes hex = Ok bytes
    /\ SpecModel.bigEndian (bytesToHex bytes) = Ok v.
Proof.
  unfold SpecModel.bigintOrEmpty, SpecModel.bigEndian.
  destruct (Z.eqb_spec v 0) as [-> | Hv].
  - intros [= <-]. exists []. split; reflexivity.
  - unfold toHex, numberToHex. cbn [andb orb].
    destruct (Z.ltb_spec v 0); [discriminate|]. intros [= <-].
    destruct (hexToBytes_value _ _ (hexValue_toString16 (Z.to_N v)))
      as (bytes & Hb & U).
    exists bytes. split; [assumption|].
    rewrite hexToBytes_bytesToHex. cbn [bindR]. rewrite U.
    f_equal. lia.
Qed.

Local Open Scope Z_scope.

(** ** The mint amount and the sender *)

Lemma toHex_70 : toHex (VNumber 70) = Ok "0x46".
Proof. vm_compute. reflexivity. Qed.

Lemma concatHex_tag (encoded : ByteArray) :
  concatHex ["0x46"; bytesToHex encoded] = bytesToHex (x46 :: encoded).
Proof. reflexivity. Qed.

Section Amounts.
Context `{W : World}.




End Amounts.



(** ** The payload of the event *)

Section Payload.
Context `{W : World}.

Lemma decodeEvent_tooShort (facetEvent : Log.t) (fctMintRate : Z)
      (decoded : RecursiveArray Hex) :
  fromRlp ("0x" ++ slice 4 (Log.data facetEvent)) = Ok decoded ->
  tooShort decoded ->
  Index.decodeEvent facetEvent fctMintRate
  = (fromAddress <~ await (applyL1ToL2Alias (Log.address facetEvent)) ;;
     Raise Index.invalidRlpData).
Proof.
  intros D T. unfold Index.decodeEvent. rewrite D. cbn [await bindF].
  destruct decoded as [s|[|e0 [|e1 [|e2 [|e3 [|e4 [|e5 rest]]]]]]];
    try reflexivity.
  cbn in T. lia.
Qed.

(** C1, as the handler has it.  When the data of the Facet event, without
    its first byte, decodes to something that is no list, or to a list of
    fewer than six members, the handler throws, and the answer has status
    500; its body is the error ["Invalid RLP data in Facet event"] (unless
    [applyL1ToL2Alias] threw before). *)
Theorem invalid_payload_status
        (request : Request.t) (l1TransactionHash : string)
        (l1ChainId : JsNumber) (l1PublicClient : PublicClient)
        (transaction : Transaction.t) (fctMintRate : Z)
        (receipt : Receipt.t) (facetEvent : Log.t)
        (decoded : RecursiveArray Hex) :
  Index.validate request = Next (l1TransactionHash, l1ChainId) ->
  Index.lookup l1TransactionHash l1ChainId
  = Next (l1PublicClient, transaction, fctMintRate) ->
  Index.sentToInbox transaction = false ->
  getTransactionReceipt l1PublicClient l1TransactionHash = Ok receipt ->
  Index.findFacetEvent receipt = Some facetEvent ->
  fromRlp ("0x" ++ slice 4 (Log.data facetEvent)) = Ok decoded ->
  tooShort decoded ->
  exists response,
    Index.fetch request = Some response
    /\ Response.status response = 500
    /\ (forall fromAddress,
          applyL1ToL2Alias (Log.address facetEvent) = Ok fromAddress ->
          response = errorResponse "Invalid RLP data in Facet event" 500).
Proof.
  intros V L S R F D T.
  unfold Index.fetch, Index.handler. rewrite V. cbn [bindF]. rewrite L.
  cbn [bindF]. unfold Index.derive. rewrite S. unfold Index.eventPath.
  rewrite R. cbn [await bindF]. rewrite F.
  rewrite (decodeEvent_tooShort _ _ _ D T).
  destruct (applyL1ToL2Alias (Log.address facetEvent)) as [a|m];
    cbn [await bindF tryCatch]; eexists; (split; [reflexivity|]);
    (split; [reflexivity|]).
  - reflexivity.
  - discriminate.
Qed.

(** C3, as the handler has it.  A byte string at member 1 of the decoded
    list is the hex of some bytes; the recipient is absent if there are no
    bytes, and is the string itself, as decoded, otherwise -- whatever the
    number of bytes.  The same holds of the earlier handler. *)
Theorem recipient_of_event
        (facetEvent : Log.t) (fctMintRate : Z) (toAddressBytes : Hex)
        (e0 valueHex gasLimitHex data e5 : RecursiveArray Hex)
        (rest : list (RecursiveArray Hex)) :
  fromRlp ("0x" ++ slice 4 (Log.data facetEvent))
  = Ok (Arr (e0 :: Item toAddressBytes :: valueHex :: gasLimitHex
                :: data :: e5 :: rest)) ->
  exists bytes,
    toAddressBytes = bytesToHex bytes
    /\ let recipient :=
         match bytes with
         | [] => None
         | _ :: _ => Some (Item toAddressBytes)
         end in
       (forall d, Index.decodeEvent facetEvent fctMintRate = Next d ->
                  Derived.to d = recipient)
       /\ (forall d, Part000.decodeEvent facetEvent = Next d ->
                     Fields.to d = recipient).
Proof.
  intros D.
  assert (B : exists bytes, toAddressBytes = bytesToHex bytes).
  { pose proof (fromRlp_hexItems _ _ D) as Hx.
    inversion Hx as [|items F]; subst.
    inversion F as [|x0 l0 _ F1]; subst.
    inversion F1 as [|x1 l1 H1 _]; subst.
    inversion H1; subst. eexists; reflexivity. }
  destruct B as [bytes ->]. exists bytes. split; [reflexivity|].
  intros recipient.
  assert (E : (if (jsLength (Item (bytesToHex bytes)) <=? 2)%nat
               then None else Some (Item (bytesToHex bytes))) = recipient).
  { unfold recipient, jsLength, bytesToHex. cbn [append String.length].
    rewrite length_hexOfBytes. destruct bytes; reflexivity. }
  split; intros d H.
  - apply decodeEvent_Next in H.
    destruct H as (from & a0 & a1 & a2 & a3 & a4 & a5 & r & v & g & bs
                   & _ & D' & _ & _ & _ & ->).
    rewrite D in D'. injection D' as <- <- <- <- <- <- <-. exact E.
  - unfold Part000.decodeEvent in H. rewrite D in H.
    next_inv H. cbn [await bindF] in H. next_inv H. next_inv H.
    injection H as <-. exact E.
Qed.

End Payload.

(** In the demo world the transaction ["0x03"] emits a Facet event whose
    payload is the tag and an empty list. *)
Lemma invalid_payload_status_witness :
  exists response,
    Index.fetch (W := Demo.world) (Demo.request "0x03" "1") = Some response
    /\ Response.status response = 500
    /\ (forall fromAddress,
          Demo.aliasOf (Log.address (Demo.facetLog Demo.emptyListPayload))
          = Ok fromAddress ->
          response = errorResponse "Invalid RLP data in Facet event" 500).
Proof.
  apply (invalid_payload_status (W := Demo.world)
           (Demo.request "0x03" "1") "0x03" (JsInt 1) (Demo.client mainnet)
           Demo.contractTransaction Demo.MINT_RATE
           {| Receipt.logs := [Demo.facetLog Demo.emptyListPayload] |}
           (Demo.facetLog Demo.emptyListPayload) (Arr []));
    try reflexivity.
  cbn. lia.
Defined.

(** C1 as stated fails: the event of transaction ["0x03"] carries a
    payload that decodes to a list of no members, and the answer has
    status 500, not 400. *)
Lemma invalid_payload_not_400 :
  Index.findFacetEvent
    {| Receipt.logs := [Demo.facetLog Demo.emptyListPayload] |}
  = Some (Demo.facetLog Demo.emptyListPayload)
  /\ fromRlp ("0x" ++ slice 4 Demo.emptyListPayload) = Ok (Arr [])
  /\ Index.fetch (W := Demo.world) (Demo.request "0x03" "1")
     = Some (errorResponse "Invalid RLP data in Facet event" 500)
  /\ Response.status (errorResponse "Invalid RLP data in Facet event" 500)
     <> 400.
Proof.
  repeat split; try reflexivity. discriminate.
Qed.

(** The demo payload with the single byte 5 for a recipient. *)
Lemma recipient_of_event_witness :
  exists bytes,
    "0x05" = bytesToHex bytes
    /\ let recipient :=
         match bytes with
         | [] => None
         | _ :: _ => Some (Item "0x05")
         end in
       (forall d, Index.decodeEvent (W := Demo.world)
                    (Demo.facetLog Demo.oneBytePayload) Demo.MINT_RATE
                  = Next d ->
                  Derived.to d = recipient)
       /\ (forall d, Part000.decodeEvent (W := Demo.world)
                       (Demo.facetLog Demo.oneBytePayload) = Next d ->
                     Fields.to d = recipient).
Proof.
  apply (recipient_of_event (W := Demo.world)
           (Demo.facetLog Demo.oneBytePayload) Demo.MINT_RATE "0x05"
           (Item "0x0face7") (Item "0x") (Item "0x5208") (Item "0xabcdef")
           (Item "0x") []).
  reflexivity.
Defined.

(** C3 as stated fails: member 1 of the payload has one byte, and the
    recipient is that byte, not absent. *)
Lemma one_byte_recipient_present :
  fromRlp ("0x" ++ slice 4 Demo.oneBytePayload)
  = Ok (Arr [Item "0x0face7"; Item (bytesToHex [x05]); Item "0x";
             Item "0x5208"; Item "0xabcdef"; Item "0x"])
  /\ (List.length [x05] <= 1)%nat
  /\ exists d,
       Index.decodeEvent (W := Demo.world)
         (Demo.facetLog Demo.oneBytePayload) Demo.MINT_RATE = Next d
       /\ Derived.to d = Some (Item "0x05")
       /\ Derived.to d <> None.
Proof.
  split; [reflexivity|]. split; [cbn; lia|].
  eexists. split; [reflexivity|]. split; [reflexivity | discriminate].
Qed.

(** ** The two handlers on the way of the event *)

Lemma isFacetEvent_spec (log : Log.t) :
  Index.isFacetEvent log = true
  <-> Log.topics log = [Index.FACET_EVENT_SIGNATURE].
Proof.
  unfold Index.isFacetEvent.
  destruct (Log.topics log) as [|t [|t' ts]]; try (split; discriminate).
  rewrite String.eqb_eq. split; congruence.
Qed.

(** [find] gives the first member that passes the test. *)
Lemma find_first {A} (f : A -> bool) (l : list A) (x : A) :
  List.find f l = Some x ->
  exists before after,
    l = (before ++ x :: after)%list /\ f x = true
    /\ forall y, In y before -> f y = false.
Proof.
  induction l as [|a l IH]; [discriminate|]. cbn.
  destruct (f a) eqn:Fa.
  - intros [= ->]. exists [], l. repeat split; [assumption | intros y []].
  - intros H. destruct (IH H) as (before & after & -> & Fx & Hb).
    exists (a :: before), after. repeat split; [assumption|].
    intros y [<- | Hy]; auto.
Qed.

(** C9.  On the way of the event the two handlers pick the same log --
    the first one whose topics are the Facet signature alone -- and read
    the same sender, recipient, value, data and gas limit from it, failing
    on the same inputs in the same way; the later handler adds the mint
    amount to these. *)
Theorem event_paths_agree `{W : World}
        (l1PublicClient : PublicClient) (l1TransactionHash : string)
        (fctMintRate : Z) :
  (forall receipt,
      Part000.findFacetEvent receipt = Index.findFacetEvent receipt)
  /\ (forall receipt facetEvent,
        Index.findFacetEvent receipt = Some facetEvent ->
        exists before after,
          Receipt.logs receipt = (before ++ facetEvent :: after)%list
          /\ Log.topics facetEvent = [Index.FACET_EVENT_SIGNATURE]
          /\ forall log, In log before ->
                         Log.topics log <> [Index.FACET_EVENT_SIGNATURE])
  /\ (forall facetEvent,
        mapF fields (Index.decodeEvent facetEvent fctMintRate)
        = Part000.decodeEvent facetEvent)
  /\ mapF fields (Index.eventPath l1PublicClient l1TransactionHash fctMintRate)
     = Part000.eventPath l1PublicClient l1TransactionHash
  /\ (forall l1ChainId transaction,
        Index.sentToInbox transaction = false ->
        mapF fields (Index.derive l1PublicClient l1ChainId l1TransactionHash
                                  transaction fctMintRate)
        = Part000.derive l1PublicClient l1TransactionHash transaction).
Proof.
  assert (D : forall facetEvent,
             mapF fields (Index.decodeEvent facetEvent fctMintRate)
             = Part000.decodeEvent facetEvent).
  { intros ev. unfold Index.decodeEvent, Part000.decodeEvent, mapF.
    destruct (applyL1ToL2Alias (Log.address ev)) as [a|m]; [|reflexivity].
    cbn [await bindF].
    destruct (fromRlp _) as [decoded|m]; [|reflexivity]. cbn [await bindF].
    destruct decoded as [s|[|e0 [|e1 [|e2 [|e3 [|e4 [|e5 rest]]]]]]];
      try reflexivity.
    change Part000.bigIntOrZero with Index.bigIntOrZero.
    destruct (Index.bigIntOrZero e2) as [v|m]; [|reflexivity].
    cbn [await bindF].
    destruct (Index.bigIntOrZero e3) as [g|m]; [|reflexivity].
    cbn [await bindF].
    destruct (toBytes_total (Log.data ev)) as [bs ->]. reflexivity. }
  assert (E : mapF fields (Index.eventPath l1PublicClient l1TransactionHash
                                           fctMintRate)
              = Part000.eventPath l1PublicClient l1TransactionHash).
  { unfold Index.eventPath, Part000.eventPath.
    destruct (getTransactionReceipt l1PublicClient l1TransactionHash)
      as [receipt|m]; [|reflexivity].
    cbn [await bindF].
    change (Part000.findFacetEvent receipt)
      with (Index.findFacetEvent receipt).
    destruct (Index.findFacetEvent receipt) as [ev|]; [|reflexivity].
    apply D. }
  split; [reflexivity|]. split; [|split; [exact D | split; [exact E|]]].
  - intros receipt ev F. unfold Index.findFacetEvent in F.
    destruct (find_first _ _ _ F) as (before & after & L & T & B).
    exists before, after. split; [exact L|]. split.
    + now apply isFacetEvent_spec.
    + intros log Hin Ht. apply isFacetEvent_spec in Ht.
      rewrite (B log Hin) in Ht. discriminate.
  - intros n tx S. unfold Index.derive, Part000.derive.
    change (Part000.sentToInbox tx) with (Index.sentToInbox tx).
    rewrite S. exact E.
Qed.

(** ** Decoding and encoding again *)

Lemma bytesToHex_empty (bytes : ByteArray) :
  String.eqb (bytesToHex bytes) "0x"
  = match bytes with [] => true | _ :: _ => false end.
Proof.
  destruct bytes as [|b bs]; [reflexivity|].
  destruct (hexes_digits b) as (l & r & E & _).
  unfold bytesToHex. cbn [hexOfBytes]. rewrite E. cbn [append String.eqb].
  rewrite !Ascii.eqb_refl. reflexivity.
Qed.

Lemma toHexOrEmpty_bigint (v : Z) :
  Index.toHexOrEmpty (option_map VBigInt (Some v)) = SpecModel.bigintOrEmpty v.
Proof.
  unfold Index.toHexOrEmpty, SpecModel.bigintOrEmpty. cbn [option_map truthy].
  destruct (v =? 0); reflexivity.
Qed.




(** * More of the handlers *)

(** ** The numbers of the event *)

Lemma hexValue_hexOfBytes (bytes : ByteArray) (acc : N) :
  hexValue acc (hexOfBytes bytes) = Some (uintOfBytes acc bytes).
Proof.
  revert acc. induction bytes as [|b bs IH]; intros acc; [reflexivity|].
  destruct (hexes_digits b) as (l & r & E & Hl & Hr).
  cbn [hexOfBytes]. rewrite E. cbn [append hexValue].
  rewrite Hl, Hr, IH. cbn [uintOfBytes]. do 2 f_equal.
  pose proof (N.div_mod (Byte.to_N b) 16 ltac:(discriminate)). lia.
Qed.

Lemma BigInt_bytesToHex (b : byte) (bytes : ByteArray) :
  BigInt (bytesToHex (b :: bytes))
  = Ok (Z.of_N (uintOfBytes 0 (b :: bytes))).
Proof.
  pose proof (hexValue_hexOfBytes (b :: bytes) 0) as H.
  destruct (hexes_digits b) as (l & r & E & _).
  unfold bytesToHex, BigInt. cbn [hexOfBytes] in *. rewrite E in *.
  cbn [append] in *. rewrite H. reflexivity.
Qed.

(** [hex && hex !== "0x" ? BigInt(hex) : 0n] on the hex of bytes is the
    unsigned integer of the bytes. *)
Lemma bigIntOrZero_bytesToHex (bytes : ByteArray) :
  Index.bigIntOrZero (Item (bytesToHex bytes))
  = Ok (Z.of_N (uintOfBytes 0 bytes)).
Proof.
  destruct bytes as [|b bs]; [reflexivity|].
  unfold Index.bigIntOrZero, jsTruthy, notStrictEq.
  rewrite bytesToHex_empty. cbn [jsToString].
  assert (E : String.eqb (bytesToHex (b :: bs)) "" = false) by reflexivity.
  rewrite E. cbn [negb andb]. apply BigInt_bytesToHex.
Qed.

Lemma hexItems_Item_inv (hex : Hex) :
  hexItems (Item hex) -> exists bytes, hex = bytesToHex bytes.
Proof. intros H. inversion H; subst. eexists; reflexivity. Qed.

Section Event.
Context `{W : World}.

(** When members 1, 2 and 3 of the decoded list are byte strings, the
    fields of the event are read without an error: the value and the gas
    limit are the unsigned integers of their bytes (zero for no bytes),
    the data is member 4 as it is, and the mint amount is eight times the
    number of bytes of the payload. *)
Theorem event_fields
        (facetEvent : Log.t) (fctMintRate : Z) (fromAddress : string)
        (toAddressBytes valueHex gasLimitHex : Hex)
        (e0 data e5 : RecursiveArray Hex) (rest : list (RecursiveArray Hex)) :
  applyL1ToL2Alias (Log.address facetEvent) = Ok fromAddress ->
  fromRlp ("0x" ++ slice 4 (Log.data facetEvent))
  = Ok (Arr (e0 :: Item toAddressBytes :: Item valueHex :: Item gasLimitHex
                :: data :: e5 :: rest)) ->
  exists toBytes_ valueBytes gasLimitBytes payloadBytes,
    toAddressBytes = bytesToHex toBytes_
    /\ valueHex = bytesToHex valueBytes
    /\ gasLimitHex = bytesToHex gasLimitBytes
    /\ toBytes (Log.data facetEvent) = Ok payloadBytes
    /\ Index.decodeEvent facetEvent fctMintRate
       = Next {| Derived.fromAddress := fromAddress;
                 Derived.to := match toBytes_ with
                               | [] => None
                               | _ :: _ => Some (Item toAddressBytes)
                               end;
                 Derived.value := Some (Z.of_N (uintOfBytes 0 valueBytes));
                 Derived.data := Some data;
                 Derived.gasLimit :=
                   Some (Z.of_N (uintOfBytes 0 gasLimitBytes));
                 Derived.fctMintAmount :=
                   Z.of_nat (List.length payloadBytes) * 8 * fctMintRate |}.
Proof.
  intros A D.
  pose proof (fromRlp_hexItems _ _ D) as Hx.
  inversion Hx as [|items F]; subst.
  inversion F as [|x0 l0 _ F1]; subst.
  inversion F1 as [|x1 l1 H1 F2]; subst.
  inversion F2 as [|x2 l2 H2 F3]; subst.
  inversion F3 as [|x3 l3 H3 _]; subst.
  apply hexItems_Item_inv in H1, H2, H3.
  destruct H1 as [tb ->], H2 as [vb ->], H3 as [gb ->].
  destruct (toBytes_total (Log.data facetEvent)) as [pb P].
  exists tb, vb, gb, pb. repeat (split; [reflexivity || assumption|]).
  unfold Index.decodeEvent. rewrite A, D. cbn [await bindF].
  rewrite !bigIntOrZero_bytesToHex, P. cbn [await bindF].
  unfold blength. rewrite nat_N_Z.
  assert (E : (if (jsLength (Item (bytesToHex tb)) <=? 2)%nat
               then None else Some (Item (bytesToHex tb)))
              = match tb with
                | [] => None
                | _ :: _ => Some (Item (bytesToHex tb))
                end).
  { unfold jsLength, bytesToHex. cbn [append String.length].
    rewrite length_hexOfBytes. destruct tb; reflexivity. }
  rewrite E. reflexivity.
Qed.

End Event.

(** ** The payload of an event *)

Lemma slice_tag (tag : byte) (body : ByteArray) :
  "0x" ++ slice 4 (bytesToHex (tag :: body)) = bytesToHex body.
Proof.
  destruct (hexes_digits tag) as (l & r & E & _).
  unfold bytesToHex. cbn [hexOfBytes]. rewrite E. reflexivity.
Qed.

Section Tag.
Context `{W : World}.

(** The first byte of the payload is dropped unread: two events that
    differ in it alone give the same fields, or fail alike. *)
Theorem tag_not_checked
        (address : string) (topics : list string) (tag tag' : byte)
        (body : ByteArray) (fctMintRate : Z) :
  Index.decodeEvent
    {| Log.address := address; Log.topics := topics;
       Log.data := bytesToHex (tag :: body) |} fctMintRate
  = Index.decodeEvent
      {| Log.address := address; Log.topics := topics;
         Log.data := bytesToHex (tag' :: body) |} fctMintRate.
Proof.
  unfold Index.decodeEvent. cbn [Log.address Log.data].
  rewrite !slice_tag, !toBytes_bytesToHex. reflexivity.
Qed.

(** The integer [toHexOrEmpty] writes is the one its bytes stand for,
    zero for an absent value. *)
Lemma toHexOrEmpty_value (v : option Z) (hex : Hex) :
  Index.toHexOrEmpty (option_map VBigInt v) = Ok hex ->
  exists bytes,
    hexToBytes hex = Ok bytes
    /\ Z.of_N (uintOfBytes 0 bytes) = orElse v 0.
Proof.
  destruct v as [v|]; cbn [orElse].
  - rewrite toHexOrEmpty_bigint. intros H.
    destruct (bigEndian_bigintOrEmpty _ _ H) as (bytes & Hb & B).
    exists bytes. split; [assumption|].
    unfold SpecModel.bigEndian in B. rewrite hexToBytes_bytesToHex in B.
    now injection B.
  - cbn [option_map Index.toHexOrEmpty]. intros [= <-]. exists [].
    split; reflexivity.
Qed.

Lemma mapM_cons_inv {A B} (f : A -> JsResult B) (x : A) (xs : list A)
      (l : list B) :
  mapM f (x :: xs) = Ok l ->
  exists y ys, f x = Ok y /\ mapM f xs = Ok ys /\ l = y :: ys.
Proof.
  cbn [mapM]. intros H. ok_inv H. ok_inv H. injection H as <-. eauto.
Qed.

(** The payload that lines 94-103 build for a transaction sent to the
    inbox is one the event branch reads: emitted as the data of a Facet
    event, it gives back the recipient (absent when it has no bytes), the
    value and the gas limit (zero when absent), and the data. *)
Theorem encoded_read_as_event
        (l1ChainId : JsNumber) (decoded : Decoded.t) (payload : Hex)
        (facetEvent : Log.t) (fctMintRate : Z) (fromAddress : string) :
  Index.encodeTransaction l1ChainId decoded = Ok payload ->
  Log.data facetEvent = payload ->
  applyL1ToL2Alias (Log.address facetEvent) = Ok fromAddress ->
  exists toBytes_ dataBytes,
    hexToBytes (orElse (Decoded.to decoded) "0x") = Ok toBytes_
    /\ hexToBytes (orElse (Decoded.data decoded) "0x") = Ok dataBytes
    /\ mapF fields (Index.decodeEvent facetEvent fctMintRate)
       = Next {| Fields.fromAddress := fromAddress;
                 Fields.to := match toBytes_ with
                              | [] => None
                              | _ :: _ => Some (Item (bytesToHex toBytes_))
                              end;
                 Fields.value := Some (orElse (Decoded.value decoded) 0);
                 Fields.data := Some (Item (bytesToHex dataBytes));
                 Fields.gasLimit :=
                   Some (orElse (Decoded.gasLimit decoded) 0) |}.
Proof.
  unfold Index.encodeTransaction. intros H Hd A.
  ok_inv H. rename a into chain, E into Ec.
  ok_inv H. rename a into vh, E into Ev.
  ok_inv H. rename a into gh, E into Eg.
  ok_inv H. rename a into mh, E into Em.
  rewrite toHex_70 in H. cbn [bindR] in H.
  ok_inv H. rename a into rlp, E into Er. injection H as <-.
  pose proof Er as Er'. unfold toRlp in Er'. ok_inv Er'.
  rename a into enc. injection Er' as <-.
  change (Arr [Item chain; Item (orElse (Decoded.to decoded) "0x"); Item vh;
               Item gh; Item (orElse (Decoded.data decoded) "0x"); Item mh])
    with (Arr (List.map Item [chain; orElse (Decoded.to decoded) "0x"; vh; gh;
                              orElse (Decoded.data decoded) "0x"; mh])) in Er.
  destruct (fromRlp_toRlp _ _ Er) as (bss & M & D).
  destruct (toHexOrEmpty_value _ _ Ev) as (vB & Hv & Bv).
  destruct (toHexOrEmpty_value _ _ Eg) as (gB & Hg & Bg).
  apply mapM_cons_inv in M. destruct M as (cB & l1 & _ & M & ->).
  apply mapM_cons_inv in M. destruct M as (tB & l2 & Et & M & ->).
  apply mapM_cons_inv in M. destruct M as (vB' & l3 & Hv' & M & ->).
  apply mapM_cons_inv in M. destruct M as (gB' & l4 & Hg' & M & ->).
  apply mapM_cons_inv in M. destruct M as (dB & l5 & Edata & M & ->).
  apply mapM_cons_inv in M. destruct M as (mB & l6 & _ & M & ->).
  injection M as <-.
  rewrite Hv in Hv'. injection Hv' as <-.
  rewrite Hg in Hg'. injection Hg' as <-.
  cbn [List.map] in D.
  exists tB, dB. split; [assumption|]. split; [assumption|].
  unfold Index.decodeEvent, mapF. rewrite A, Hd, concatHex_tag, slice_tag, D.
  cbn [await bindF]. rewrite !bigIntOrZero_bytesToHex, toBytes_bytesToHex.
  cbn [await bindF fields Derived.fromAddress Derived.to Derived.value
       Derived.data Derived.gasLimit].
  rewrite Bv, Bg.
  assert (Eto : (if (jsLength (Item (bytesToHex tB)) <=? 2)%nat
                 then None else Some (Item (bytesToHex tB)))
                = match tB with
                  | [] => None
                  | _ :: _ => Some (Item (bytesToHex tB))
                  end).
  { unfold jsLength, bytesToHex. cbn [append String.length].
    rewrite length_hexOfBytes. destruct tB; reflexivity. }
  rewrite Eto. reflexivity.
Qed.

End Tag.

(** ** The block of the mint rate, again *)

(** Whenever the block is computed, it lies [floor(elapsed / 12)] blocks
    before the head: not after the head when the L1 block is not newer
    than the head, and after the head when it is. *)
Theorem target_block_bounds
        (latestL2Block transactionBlock : Block.t) (target : Z) :
  Index.targetL2BlockNumber latestL2Block transactionBlock = Some target ->
  let elapsed :=
    Block.timestamp latestL2Block - Block.timestamp transactionBlock in
  let back := Block.number latestL2Block - target in
  12 * back <= elapsed < 12 * back + 12
  /\ (0 <= elapsed -> target <= Block.number latestL2Block)
  /\ (elapsed < 0 -> Block.number latestL2Block < target).
Proof.
  unfold Index.targetL2BlockNumber, NumberOfBigInt, numberSub, floorDiv,
    Index.L2_BLOCK_TIME.
  destruct (isSafeInteger (Block.timestamp latestL2Block)); [|discriminate].
  destruct (isSafeInteger (Block.timestamp transactionBlock));
    [|discriminate].
  destruct (isSafeInteger _); [|discriminate].
  intros [= <-]. cbv zeta.
  pose proof (Z.div_mod (Block.timestamp latestL2Block
                         - Block.timestamp transactionBlock) 12
                        ltac:(discriminate)) as D.
  pose proof (Z.mod_pos_bound (Block.timestamp latestL2Block
                               - Block.timestamp transactionBlock) 12
                              ltac:(lia)) as B.
  lia.
Qed.

(** The demo blocks: 125 seconds, ten blocks back. *)
Lemma target_block_bounds_witness :
  let elapsed := 1700000125 - 1700000000 in
  let back := 5000 - 4990 in
  12 * back <= elapsed < 12 * back + 12
  /\ (0 <= elapsed -> 4990 <= 5000)
  /\ (elapsed < 0 -> 5000 < 4990).
Proof.
  apply (target_block_bounds Demo.l2Head Demo.l1Block 4990). reflexivity.
Defined.

(** ** [getFctMintRate] *)

Lemma validate_Next `{W : World} (request : Request.t)
      (l1TransactionHash : string) (l1ChainId : JsNumber) :
  Index.validate request = Next (l1TransactionHash, l1ChainId) ->
  l1ChainId = JsInt 1 \/ l1ChainId = JsInt 11155111.
Proof.
  intros E. pose proof (validate_spec request) as V. cbv zeta in V.
  destruct (stringFalsy _ || numberFalsy _); [congruence|].
  destruct (numberIs _ 1) eqn:H1; cbn in V.
  - rewrite V in E. inversion E; subst. apply numberIs_true in H1. auto.
  - destruct (numberIs _ 11155111) eqn:H2; [|congruence].
    rewrite V in E. inversion E; subst. apply numberIs_true in H2. auto.
Qed.

(** [getFctMintRate] throws for every chain id but 1 and 11155111; for
    these it reads [fctMintRate] of the L1-block contract on Facet mainnet
    and on Facet Sepolia, at the block number it was given.  In the
    handler its guard never fires: a chain id that passed the checks is
    one of the two. *)
Theorem mint_rate_read `{W : World} (l1ChainId : JsNumber)
        (blockNumber : option Z) :
  (l1ChainId <> JsInt 1 -> l1ChainId <> JsInt 11155111 ->
   GetFctMintRate.getFctMintRate l1ChainId blockNumber
   = Throw "Invalid chain id")
  /\ (l1ChainId = JsInt 1 ->
      GetFctMintRate.getFctMintRate l1ChainId blockNumber
      = readContract (createPublicClient facetMainnet)
          "0x4200000000000000000000000000000000000015" "fctMintRate"
          blockNumber)
  /\ (l1ChainId = JsInt 11155111 ->
      GetFctMintRate.getFctMintRate l1ChainId blockNumber
      = readContract (createPublicClient facetSepolia)
          "0x4200000000000000000000000000000000000015" "fctMintRate"
          blockNumber)
  /\ (forall request l1TransactionHash,
        Index.validate request = Next (l1TransactionHash, l1ChainId) ->
        GetFctMintRate.getFctMintRate l1ChainId blockNumber
        = readContract
            (createPublicClient
               (if numberIs l1ChainId 1 then facetMainnet else facetSepolia))
            "0x4200000000000000000000000000000000000015" "fctMintRate"
            blockNumber).
Proof.
  unfold GetFctMintRate.getFctMintRate.
  split; [|split; [|split]].
  - intros H1 H2. apply numberIs_false in H1, H2. now rewrite H1, H2.
  - intros ->. reflexivity.
  - intros ->. reflexivity.
  - intros request h V.
    destruct (validate_Next request h l1ChainId V) as [-> | ->]; reflexivity.
Qed.

(** ** Runs of the demo world *)

(** The demo event with the well-formed payload: no recipient, no value,
    gas limit 21000, sixteen bytes of payload at the rate 1000. *)
Lemma event_fields_witness :
  exists toBytes_ valueBytes gasLimitBytes payloadBytes,
    "0x" = bytesToHex toBytes_
    /\ "0x" = bytesToHex valueBytes
    /\ "0x5208" = bytesToHex gasLimitBytes
    /\ toBytes (Log.data (Demo.facetLog Demo.goodPayload)) = Ok payloadBytes
    /\ Index.decodeEvent (W := Demo.world)
         (Demo.facetLog Demo.goodPayload) 1000
       = Next {| Derived.fromAddress :=
                   "0x3333222222222222222222222222222222223333";
                 Derived.to := match toBytes_ with
                               | [] => None
                               | _ :: _ => Some (Item "0x")
                               end;
                 Derived.value := Some (Z.of_N (uintOfBytes 0 valueBytes));
                 Derived.data := Some (Item "0xabcdef");
                 Derived.gasLimit :=
                   Some (Z.of_N (uintOfBytes 0 gasLimitBytes));
                 Derived.fctMintAmount :=
                   Z.of_nat (List.length payloadBytes) * 8 * 1000 |}.
Proof.
  apply (event_fields (W := Demo.world) (Demo.facetLog Demo.goodPayload) 1000
           "0x3333222222222222222222222222222222223333" "0x" "0x" "0x5208"
           (Item "0x0face7") (Item "0xabcdef") (Item "0x") []);
    reflexivity.
Defined.

(** A transaction to the one-byte recipient 5 with value 1 and no gas
    limit, encoded for Facet mainnet and emitted by the demo contract. *)
Lemma encoded_read_as_event_witness :
  exists toBytes_ dataBytes,
    hexToBytes (orElse (Some "0x05") "0x") = Ok toBytes_
    /\ hexToBytes (orElse (Some "0xabcdef") "0x") = Ok dataBytes
    /\ mapF fields
         (Index.decodeEvent (W := Demo.world)
            (Demo.facetLog "0x46cc830face705018083abcdef80") 1000)
       = Next {| Fields.fromAddress :=
                   "0x3333222222222222222222222222222222223333";
                 Fields.to := match toBytes_ with
                              | [] => None
                              | _ :: _ => Some (Item (bytesToHex toBytes_))
                              end;
                 Fields.value := Some (orElse (Some 1) 0);
                 Fields.data := Some (Item (bytesToHex dataBytes));
                 Fields.gasLimit := Some (orElse None 0) |}.
Proof.
  apply (encoded_read_as_event (W := Demo.world) (JsInt 1)
           {| Decoded.to := Some "0x05"; Decoded.value := Some 1;
              Decoded.data := Some "0xabcdef"; Decoded.gasLimit := None;
              Decoded.mineBoost := None |}
           "0x46cc830face705018083abcdef80"
           (Demo.facetLog "0x46cc830face705018083abcdef80") 1000
           "0x3333222222222222222222222222222222223333");
    reflexivity.
Defined.

(** ** The answers of the handler *)

Section Answers.
Context `{W : World}.

Lemma validate_error (request : Request.t) (r : Response.t) :
  Index.validate request = Respond r ->
  exists message, r = errorResponse message 400.
Proof.
  unfold Index.validate.
  destruct (_ || _); [intros [= <-]; eauto|].
  destruct (_ && _); [intros [= <-]; eauto | discriminate].
Qed.


Lemma lookup_error (l1TransactionHash : string) (l1ChainId : JsNumber)
      (r : Response.t) :
  Index.lookup l1TransactionHash l1ChainId = Respond r ->
  r = errorResponse "Transaction not found" 404
  /\ getTransaction
       (createPublicClient (if numberIs l1ChainId 1 then mainnet else sepolia))
       l1TransactionHash = Ok None.
Proof.
  unfold Index.lookup. intros H.
  apply bindF_Respond in H. destruct H as [H | (a & E & H)];
    [now apply await_not_Respond in H|].
  apply await_Next in E.
  destruct a as [transaction|]; [|injection H as <-; now split].
  apply bindF_Respond in H. destruct H as [H | (b1 & _ & H)];
    [now apply await_not_Respond in H|].
  apply bindF_Respond in H. destruct H as [H | (b2 & _ & H)];
    [now apply await_not_Respond in H|].
  apply bindF_Respond in H. destruct H as [H | (t & _ & H)];
    [now apply exactly_not_Respond in H|].
  apply bindF_Respond in H. destruct H as [H | (rate & _ & H)];
    [now apply await_not_Respond in H | discriminate].
Qed.

Lemma decodeEvent_not_Respond (facetEvent : Log.t) (fctMintRate : Z)
      (r : Response.t) :
  Index.decodeEvent facetEvent fctMintRate <> Respond r.
Proof.
  unfold Index.decodeEvent. intros H.
  apply bindF_Respond in H. destruct H as [H | (b & _ & H)];
    [now apply await_not_Respond in H|].
  apply bindF_Respond in H. destruct H as [H | (c & _ & H)];
    [now apply await_not_Respond in H|].
  destruct c as [|[|e0 [|e1 [|e2 [|e3 [|e4 [|e5 rest]]]]]]];
    try discriminate.
  apply bindF_Respond in H. destruct H as [H | (v & _ & H)];
    [now apply await_not_Respond in H|].
  apply bindF_Respond in H. destruct H as [H | (g & _ & H)];
    [now apply await_not_Respond in H|].
  apply bindF_Respond in H. destruct H as [H | (bs & _ & H)];
    [now apply await_not_Respond in H | discriminate].
Qed.

Lemma derive_error (l1PublicClient : PublicClient) (l1ChainId : JsNumber)
      (l1TransactionHash : string) (transaction : Transaction.t)
      (fctMintRate : Z) (r : Response.t) :
  Index.derive l1PublicClient l1ChainId l1TransactionHash transaction
               fctMintRate = Respond r ->
  r = errorResponse "No Facet event found in transaction" 400.
Proof.
  unfold Index.derive. destruct (Index.sentToInbox transaction).
  - unfold Index.directPath. intros H.
    apply bindF_Respond in H. destruct H as [H | (a & _ & H)];
      [now apply await_not_Respond in H|].
    apply bindF_Respond in H. destruct H as [H | (b & _ & H)];
      [now apply await_not_Respond in H | discriminate].
  - unfold Index.eventPath. intros H.
    apply bindF_Respond in H. destruct H as [H | (a & _ & H)];
      [now apply await_not_Respond in H|].
    destruct (Index.findFacetEvent a); [|now injection H as <-].
    now apply decodeEvent_not_Respond in H.
Qed.

(** Every answer of the handler has one of three shapes.  Status 200
    carries the content type and a body with the hash; status 400 and 500
    carry no header and a body with an error message; and status 404 is
    the answer [Transaction not found], given only when the request
    passed the checks and the L1 chain resolved the hash to no
    transaction. *)
Theorem fetch_answers (request : Request.t) (response : Response.t) :
  Index.fetch request = Some response ->
  (Response.status response = 200
   /\ Response.headers response = [("Content-Type", "application/json")]
   /\ exists facetTransactionHash,
       Response.body response
       = stringify "facetTransactionHash" facetTransactionHash)
  \/ (exists message status,
         response = errorResponse message status
         /\ (status = 400 \/ status = 500))
  \/ (response = errorResponse "Transaction not found" 404
      /\ exists l1TransactionHash l1ChainId,
          Index.validate request = Next (l1TransactionHash, l1ChainId)
          /\ getTransaction
               (createPublicClient
                  (if numberIs l1ChainId 1 then mainnet else sepolia))
               l1TransactionHash = Ok None).
Proof.
  unfold Index.fetch, tryCatch. intros F.
  destruct (Index.handler request) as [r|r|m|] eqn:H; try discriminate;
    injection F as F; subst response.
  - left. unfold Index.handler in H.
    next_inv H. destruct a as [hash n].
    next_inv H. destruct a as [[client tx] rate].
    next_inv H. unfold Index.respond in H. next_inv H.
    injection H as H. subst r. cbn. eauto.
  - right. unfold Index.handler in H.
    apply bindF_Respond in H. destruct H as [H | ([hash n] & V & H)].
    { apply validate_error in H. destruct H as [m ->]. left. eauto. }
    apply bindF_Respond in H.
    destruct H as [H | ([[client tx] rate] & _ & H)].
    { apply lookup_error in H. destruct H as [-> G]. right. eauto 6. }
    apply bindF_Respond in H. destruct H as [H | (d & _ & H)].
    { apply derive_error in H. subst r. left. eauto. }
    unfold Index.respond in H.
    apply bindF_Respond in H. destruct H as [H | (h & _ & H)];
      [now apply await_not_Respond in H | discriminate].
  - right. left. eauto.
Qed.



End Answers.

(** The demo request for a contract transaction with a Facet event. *)
Lemma fetch_answers_witness :
  (Response.status
     (Response.make 200 (stringify "facetTransactionHash" "0x02")
                    [("Content-Type", "application/json")]) = 200
   /\ Response.headers
        (Response.make 200 (stringify "facetTransactionHash" "0x02")
                       [("Content-Type", "application/json")])
      = [("Content-Type", "application/json")]
   /\ exists facetTransactionHash,
       Response.body
         (Response.make 200 (stringify "facetTransactionHash" "0x02")
                        [("Content-Type", "application/json")])
       = stringify "facetTransactionHash" facetTransactionHash)
  \/ (exists message status,
         Response.make 200 (stringify "facetTransactionHash" "0x02")
                       [("Content-Type", "application/json")]
         = errorResponse message status
         /\ (status = 400 \/ status = 500))
  \/ (Response.make 200 (stringify "facetTransactionHash" "0x02")
                    [("Content-Type", "application/json")]
      = errorResponse "Transaction not found" 404
      /\ exists l1TransactionHash l1ChainId,
          Index.validate (W := Demo.world) (Demo.request "0x02" "1")
          = Next (l1TransactionHash, l1ChainId)
          /\ getTransaction
               (createPublicClient (World := Demo.world)
                  (if numberIs l1ChainId 1 then mainnet else sepolia))
               l1TransactionHash = Ok None).
Proof.
  apply (fetch_answers (W := Demo.world) (Demo.request "0x02" "1")).
  reflexivity.
Defined.


